(** * Realify News: retrieval, extraction and summarization pipeline

    A shallow embedding of [app.py] and the properties of its
    specification.  Python values are modelled as follows.

    - A [str] is a list of Unicode code points (type [N]); [len] is the
      number of code points, as in Python.
    - A [dict] with string keys is a [gmap string PyVal].
    - Functions that log, touch the lazily-loaded summarization model or
      the SQLite table, or may raise, live in the monad [M]: explicit
      state passing with a [Result] that is either a value or a raised
      exception.
    - Third-party libraries (requests, BeautifulSoup, transformers) and
      the five site scrapers' search methods are an interface, gathered
      in the records [World] and [NewsScraper]; every theorem holds for
      all their behaviours. *)

From Stdlib Require Import ZArith NArith Ascii String DecimalString.
From stdpp Require Import base list sorting gmap strings.

(** ** Python strings *)

Abbreviation pystr := (list N).

(** An ASCII literal as a Python string. *)
Definition py (s : string) : pystr :=
  N_of_ascii <$> list_ascii_of_string s.

Definition space : N := 32%N.
Definition dot : N := 46%N.

(** [str.isspace] on one code point: the Unicode white-space characters
    that [str.split()] and [str.strip()] recognise. *)
Definition isspace (c : N) : bool :=
  ((9 <=? c) && (c <=? 13))%N
  || ((28 <=? c) && (c <=? 32))%N
  || (c =? 133)%N || (c =? 160)%N || (c =? 5760)%N
  || ((8192 <=? c) && (c <=? 8202))%N
  || (c =? 8232)%N || (c =? 8233)%N || (c =? 8239)%N
  || (c =? 8287)%N || (c =? 12288)%N.

(** [len(s)] *)
Definition len (s : pystr) : Z := Z.of_nat (length s).

(** Truth value of a string: [not s] holds for the empty string only. *)
Definition falsy (s : pystr) : bool :=
  match s with [] => true | _ => false end.

(** [s.lstrip()], [s.rstrip()], [s.strip()] *)
Fixpoint lstrip (s : pystr) : pystr :=
  match s with
  | [] => []
  | c :: s' => if isspace c then lstrip s' else s
  end.

Definition rstrip (s : pystr) : pystr := reverse (lstrip (reverse s)).

Definition strip (s : pystr) : pystr := rstrip (lstrip s).

(** [s.split()]: the maximal runs of non-white-space characters.  [word]
    is the run being read. *)
Fixpoint split_ws_from (word : pystr) (s : pystr) : list pystr :=
  match s with
  | [] => match word with [] => [] | _ => [word] end
  | c :: s' =>
      if isspace c then
        match word with
        | [] => split_ws_from [] s'
        | _ => word :: split_ws_from [] s'
        end
      else split_ws_from (word ++ [c]) s'
  end.

Definition split_ws (s : pystr) : list pystr := split_ws_from [] s.

(** [sep.join(parts)] *)
Fixpoint join (sep : pystr) (parts : list pystr) : pystr :=
  match parts with
  | [] => []
  | [p] => p
  | p :: rest => p ++ sep ++ join sep rest
  end.

(** [" ".join(text.split())] *)
Definition normalize (text : pystr) : pystr := join [space] (split_ws text).

(** [s.split(". ")]: cut at every occurrence of a full stop followed by
    a space, scanning from the left; [piece] is the part read since the
    last cut.  The result always has at least one element. *)
Fixpoint split_sentences_from (piece : pystr) (s : pystr) : list pystr :=
  match s with
  | [] => [piece]
  | c :: s' =>
      match s' with
      | c2 :: s'' =>
          if ((c =? dot) && (c2 =? space))%N
          then piece :: split_sentences_from [] s''
          else split_sentences_from (piece ++ [c]) s'
      | [] => [piece ++ [c]]
      end
  end.

Definition split_sentences (s : pystr) : list pystr :=
  split_sentences_from [] s.

Definition dot_space : pystr := [dot; space].

(** [(s[:n] + "...") if len(s) > n else s] *)
Definition truncate (n : nat) (s : pystr) : pystr :=
  if (Z.of_nat n <? len s)%Z then take n s ++ py "..." else s.

(** ** Text chunker *)

(** One iteration of the [for sentence in text.split(". ")] loop of
    [_chunk_text]; the loop state is the pair [(chunks, current)]. *)
Definition chunk_step (max_chars : Z) (st : list pystr * list pystr)
    (sentence : pystr) : list pystr * list pystr :=
  let '(chunks, current) := st in
  let sentence := strip sentence in
  if falsy sentence then (chunks, current)
  else
    let candidate := strip (join dot_space (current ++ [sentence])) in
    if (len candidate <=? max_chars)%Z then (chunks, current ++ [sentence])
    else
      (match current with
       | [] => chunks
       | _ => chunks ++ [strip (join dot_space current)]
       end, [sentence]).

Definition _chunk_text (text : pystr) (max_chars : Z) : list pystr :=
  let text := normalize text in
  if (len text <=? max_chars)%Z then [text]
  else
    let '(chunks, current) :=
      foldl (chunk_step max_chars) ([], []) (split_sentences text) in
    match current with
    | [] => chunks
    | _ => chunks ++ [strip (join dot_space current)]
    end.

(** ** Exceptions, log records and the program state *)

(** The exception classes the program distinguishes; all derive from
    [Exception]. *)
Inductive ExnClass := ValueError | SqliteError | OtherException.

Record exn := { exn_class : ExnClass; exn_msg : pystr }.

Inductive Result (A : Type) :=
  | Ok (a : A)
  | Raise (e : exn).
Arguments Ok {A} a.
Arguments Raise {A} e.

(** The five news sources, in the order [search_all_sources] visits them. *)
Inductive Source := Geo | BBC | ARY | Samaa | Dawn.

Inductive Level := INFO | WARNING | ERROR.

(** One constructor per [logger] call of the embedded functions, with the
    values interpolated in the message. *)
Inductive LogMsg :=
  | LoadingModel
  | ModelLoaded
  | ModelLoadError (e : exn)
  | FallBackToTruncation
  | SummarizerUnavailable
  | ChunkSummarizationError (e : exn)
  | FinalPassFailed (e : exn)
  | UnexpectedSummarizationError (e : exn)
  | DatabaseInitialized
  | DatabaseError (e : exn)
  | Non200Status (status : Z) (url : pystr)
  | RequestError (url : pystr) (e : exn)
  | NotEnoughText (src : Source) (url : pystr)
  | SearchingAllSources (query : pystr)
  | SearchingSource (src : Source)
  | TotalSearchResults (n : nat)
  | SearchEndpointError (e : exn)
  | ScraperMessage (text : pystr).

(** The summarization pipeline object: called with a text, [max_length]
    and [min_length], it yields the [summary_text] of its first result or
    raises. *)
Definition Engine : Type := pystr → Z → Z → Result pystr.

Inductive PyVal := PNone | PStr (s : pystr).

(** A row of the table [headlinesData]; [NULL] is [PNone]. *)
Record Row := {
  row_id : Z;
  row_source : PyVal;
  row_url : PyVal;
  row_picture : PyVal;
  row_heading : PyVal;
  row_blog : PyVal;
  row_timestamp : Z
}.

(** The table with the counter SQLite keeps for [AUTOINCREMENT]: the
    largest row id ever handed out. *)
Record Table := { rows : list Row; sequence : Z }.

(** Process-wide state: the log, the module variable [_summarizer], the
    table [headlinesData] of the database file ([None] while it has not
    been created) and the clock read by [CURRENT_TIMESTAMP]. *)
Record State := {
  log : list (Level * LogMsg);
  _summarizer : option Engine;
  headlinesData : option Table;
  clock : Z
}.

(** The state after one more log record. *)
Definition add_log (st : State) (entry : Level * LogMsg) : State :=
  {| log := log st ++ [entry];
     _summarizer := _summarizer st;
     headlinesData := headlinesData st;
     clock := clock st |}.

Definition M (A : Type) : Type := State → Result A * State.

Definition M_ret {A} (a : A) : M A := λ st, (Ok a, st).

Definition M_bind {A B} (f : A → M B) (m : M A) : M B :=
  λ st, match m st with
        | (Ok a, st') => f a st'
        | (Raise e, st') => (Raise e, st')
        end.

#[export] Instance M_mret : MRet M := @M_ret.
#[export] Instance M_mbind : MBind M := @M_bind.

(** [raise e] *)
Definition raise {A} (e : exn) : M A := λ st, (Raise e, st).

(** The outcome of a call into a library. *)
Definition lift {A} (r : Result A) : M A := λ st, (r, st).

(** [try: body except Exception as e: handler(e)]; what the body did to
    the state before raising stays done. *)
Definition try_except {A} (body : M A) (handler : exn → M A) : M A :=
  λ st, match body st with
        | (Ok a, st') => (Ok a, st')
        | (Raise e, st') => handler e st'
        end.

(** [try: body except cls as e: handler(e)] for one exception class. *)
Definition try_except_class {A} (cls : ExnClass → bool) (body : M A)
    (handler : exn → M A) : M A :=
  try_except body (λ e, if cls (exn_class e) then handler e else raise e).

(** [for x in xs: acc = body(acc, x)] *)
Fixpoint for_each {A B} (xs : list A) (acc : B) (body : B → A → M B)
    : M B :=
  match xs with
  | [] => mret acc
  | x :: xs' => acc' ← body acc x; for_each xs' acc' body
  end.

(** [logger.info(...)], [logger.warning(...)], [logger.error(...)] *)
Definition logger (lvl : Level) (msg : LogMsg) : M unit :=
  λ st, (Ok tt, add_log st (lvl, msg)).

Definition read_summarizer : M (option Engine) :=
  λ st, (Ok (_summarizer st), st).

Definition write_summarizer (s : option Engine) : M unit :=
  λ st, (Ok tt,
         {| log := log st;
            _summarizer := s;
            headlinesData := headlinesData st;
            clock := clock st |}).

Definition read_table : M (option Table) :=
  λ st, (Ok (headlinesData st), st).

Definition write_table (t : option Table) : M unit :=
  λ st, (Ok tt,
         {| log := log st;
            _summarizer := _summarizer st;
            headlinesData := t;
            clock := clock st |}).

Definition read_clock : M Z := λ st, (Ok (clock st), st).

(** ** The libraries the program calls *)

Record HttpResponse := { status_code : Z; text : pystr }.

(** The filter of a BeautifulSoup [find]/[find_all]: an element name and
    required attribute values ([class_], [property], [attrs=...]). *)
Record Selector := {
  sel_name : option string;
  sel_attrs : list (string * string)
}.

Record World := {
  (** [pipeline("summarization", model="t5-small", tokenizer="t5-small")] *)
  pipeline : Result Engine;
  (** [requests.get(url, headers={"User-Agent": USER_AGENT},
      timeout=REQUEST_TIMEOUT)] *)
  requests_get : pystr → Result HttpResponse;
  (** parsed documents and their elements *)
  Tag : Type;
  (** [BeautifulSoup(html, "html.parser")] *)
  BeautifulSoup : pystr → Result Tag;
  find : Tag → Selector → option Tag;
  find_all : Tag → Selector → list Tag;
  (** [tag.get_text(strip=True)] *)
  get_text : Tag → pystr;
  (** [tag.get(name)] *)
  tag_get : Tag → string → option pystr;
  (** [s.lower()] *)
  str_lower : pystr → pystr;
  (** [int(s)]; [None] stands for [ValueError] *)
  py_int : pystr → option Z
}.

(** ** Summarizer *)

Section Summarizer.
Context (W : World).

Definition load_models_with_caching : M unit :=
  try_except
    (logger INFO LoadingModel;;
     model ← lift (pipeline W);
     write_summarizer (Some model);;
     logger INFO ModelLoaded)
    (λ e,
     logger ERROR (ModelLoadError e);;
     logger WARNING FallBackToTruncation).

(** The lock is not modelled: one call runs at a time, so the second
    test of [_summarizer], made once the lock is held, reads the same
    value as the first. *)
Definition get_summarizer : M (option Engine) :=
  s ← read_summarizer;
  match s with
  | None =>
      s' ← read_summarizer;
      match s' with
      | None => load_models_with_caching
      | Some _ => mret tt
      end
  | Some _ => mret tt
  end;;
  read_summarizer.

(** One iteration of the [for chunk in chunks] loop of
    [summarize_text]. *)
Definition summarize_chunk (summarizer : Engine)
    (partial_summaries : list pystr) (chunk : pystr) : M (list pystr) :=
  try_except
    (summary ← lift (summarizer chunk 120 40)%Z;
     mret (partial_summaries ++ [strip summary]))
    (λ e,
     logger WARNING (ChunkSummarizationError e);;
     mret (partial_summaries ++ [take 300 chunk])).

Definition summarize_text (text : pystr) : M pystr :=
  if falsy text then mret []
  else
    let text := normalize text in
    if (len text <=? 400)%Z then mret text
    else
      summarizer ← get_summarizer;
      match summarizer with
      | None =>
          logger WARNING SummarizerUnavailable;;
          mret (truncate 800 text)
      | Some summarizer =>
          try_except
            (let chunks := _chunk_text text 700 in
             partial_summaries ←
               for_each chunks [] (summarize_chunk summarizer);
             let combined := join [space] partial_summaries in
             let combined := normalize combined in
             if (len combined <=? 500)%Z then mret combined
             else
               try_except
                 (final_summary ← lift (summarizer combined 150 50)%Z;
                  mret (strip final_summary))
                 (λ e2,
                  logger WARNING (FinalPassFailed e2);;
                  mret (truncate 800 combined)))
            (λ e,
             logger ERROR (UnexpectedSummarizationError e);;
             mret (truncate 800 text))
      end.

End Summarizer.

(** ** Database manager *)

(** The database is the table [headlinesData] of the state.  The file is
    taken to open and every text value to be one SQLite stores:
    [sqlite3.connect], which [save_headline] calls outside its [try], and
    the encoding of a [str] as UTF-8 (refused for a lone surrogate with
    [UnicodeEncodeError], no [sqlite3.Error]) are not part of the model,
    so the properties of [save_headline] are properties of saves that go
    through to SQLite. *)

Abbreviation Dict := (gmap string PyVal).

#[export] Instance PyVal_eq_dec : EqDecision PyVal.
Proof. solve_decision. Defined.

Definition MAX_ARTICLES : Z := 50.

(** [d.get(key)] and [d.get(key, fallback)] *)
Definition dict_get (d : Dict) (key : string) : PyVal :=
  default PNone (d !! key).

Definition dict_get_or (d : Dict) (key : string) (fallback : PyVal) : PyVal :=
  default fallback (d !! key).

Definition is_sqlite_error (c : ExnClass) : bool :=
  match c with SqliteError => true | _ => false end.

Definition is_value_error (c : ExnClass) : bool :=
  match c with ValueError => true | _ => false end.

Definition no_such_table : exn :=
  {| exn_class := SqliteError; exn_msg := py "no such table: headlinesData" |}.

(** [CREATE TABLE IF NOT EXISTS headlinesData (...)] *)
Definition create_table_if_not_exists : M unit :=
  t ← read_table;
  match t with
  | None => write_table (Some {| rows := []; sequence := 0 |})
  | Some _ => mret tt
  end.

Definition _init_db : M unit :=
  create_table_if_not_exists;;
  logger INFO DatabaseInitialized.

(** A stored row stands in the way of a new one when it has the new
    row's id (the primary key) or its url ([url TEXT UNIQUE]); a [NULL]
    url collides with nothing. *)
Definition conflicts (id : Z) (url : PyVal) (r : Row) : bool :=
  bool_decide (row_id r = id)
  || match url with
     | PStr _ => bool_decide (row_url r = url)
     | PNone => false
     end.

Definition next_id (t : Table) : Z :=
  Z.max (sequence t) (foldr Z.max 0%Z (row_id <$> rows t)) + 1.

(** [INSERT OR REPLACE INTO headlinesData (url, source, picture, heading,
    blog) VALUES (?, ?, ?, ?, ?)] at time [now]: the rows in the way are
    deleted, then the new row is added with a fresh id and the current
    time. *)
Definition insert_or_replace (now : Z)
    (url source picture heading blog : PyVal) (t : Table) : Table :=
  let id := next_id t in
  {| rows :=
       List.filter (λ r, negb (conflicts id url r)) (rows t)
       ++ [{| row_id := id; row_source := source; row_url := url;
              row_picture := picture; row_heading := heading;
              row_blog := blog; row_timestamp := now |}];
     sequence := id |}.

Definition execute_insert_or_replace
    (url source picture heading blog : PyVal) : M unit :=
  t ← read_table;
  match t with
  | None => raise no_such_table
  | Some t =>
      now ← read_clock;
      write_table
        (Some (insert_or_replace now url source picture heading blog t))
  end.

Definition save_headline (headline_data : Dict) : M unit :=
  if bool_decide (headline_data = ∅)
     || bool_decide (headline_data !! "url" = None)
  then mret tt
  else
    try_except_class is_sqlite_error
      (execute_insert_or_replace
         (dict_get headline_data "url")
         (dict_get_or headline_data "source" (PStr (py "unknown")))
         (dict_get headline_data "picture")
         (dict_get headline_data "heading")
         (dict_get headline_data "blog"))
      (λ e, logger ERROR (DatabaseError e)).

(** [dict(row)] for the columns the query selects *)
Definition row_to_dict (r : Row) : Dict :=
  <["url" := row_url r]> (<["source" := row_source r]>
  (<["picture" := row_picture r]> (<["heading" := row_heading r]>
  (<["blog" := row_blog r]> ∅)))).

(** [LIMIT n]: a negative bound is no bound. *)
Definition sql_limit {A} (n : Z) (l : list A) : list A :=
  if (n <? 0)%Z then l else take (Z.to_nat n) l.

(** [ORDER BY timestamp DESC]: newest first.  SQLite reads the table by
    row id and its sorter keeps that order among rows whose timestamps
    are equal ([CURRENT_TIMESTAMP] counts in seconds, so they can be). *)
Definition newer_first (r1 r2 : Row) : Prop :=
  (row_timestamp r2 < row_timestamp r1)%Z
  ∨ (row_timestamp r1 = row_timestamp r2 ∧ (row_id r1 ≤ row_id r2)%Z).

#[export] Instance newer_first_dec : RelDecision newer_first.
Proof. intros r1 r2. unfold newer_first. apply _. Defined.

(** The integers SQLite takes as a parameter: signed, 64 bits. *)
Definition sqlite_integer (n : Z) : bool :=
  (- 2 ^ 63 <=? n)%Z && (n <? 2 ^ 63)%Z.

(** What binding any other [int] raises; an [OverflowError] is no
    [sqlite3.Error]. *)
Definition overflow_error : exn :=
  {| exn_class := OtherException;
     exn_msg := py "Python int too large to convert to SQLite INTEGER" |}.

(** [SELECT url, source, picture, heading, blog FROM headlinesData ORDER
    BY timestamp DESC LIMIT ?] with [(limit,)]: the statement is compiled
    first, which fails without the table, and the bound is passed
    next. *)
Definition get_all_headlines (limit : Z) : M (list Dict) :=
  t ← read_table;
  match t with
  | None => raise no_such_table
  | Some t =>
      if sqlite_integer limit then
        mret (row_to_dict <$>
              sql_limit limit
                (merge_sort newer_first (rows t)))
      else raise overflow_error
  end.

(** ** HTTP fetching and article extraction *)

Definition sel (name : string) : Selector :=
  {| sel_name := Some name; sel_attrs := [] |}.

(** [find(name, class_=cls)] *)
Definition sel_class (name cls : string) : Selector :=
  {| sel_name := Some name; sel_attrs := [("class", cls)] |}.

(** [find("meta", property="og:image")] *)
Definition sel_og_image : Selector :=
  {| sel_name := Some "meta"; sel_attrs := [("property", "og:image")] |}.

(** [find_all(attrs={"data-component": "text-block"})] *)
Definition sel_text_block : Selector :=
  {| sel_name := None; sel_attrs := [("data-component", "text-block")] |}.

Definition opt_val (o : option pystr) : PyVal :=
  match o with Some s => PStr s | None => PNone end.

(** [a or b] on optional elements; an element is always true. *)
Definition or_else {A} (a b : option A) : option A :=
  match a with Some _ => a | None => b end.

(** The record an extraction returns. *)
Definition headline_dict (source url : pystr) (picture : option pystr)
    (heading blog : pystr) : Dict :=
  <["source" := PStr source]> (<["url" := PStr url]>
  (<["picture" := opt_val picture]> (<["heading" := PStr heading]>
  (<["blog" := PStr blog]> ∅)))).

Section Extraction.
Context (W : World).

Definition fetch_html (url : pystr) : M (option pystr) :=
  try_except
    (resp ← lift (requests_get W url);
     if (status_code resp =? 200)%Z then mret (Some (text resp))
     else
       logger WARNING (Non200Status (status_code resp) url);;
       mret None)
    (λ e,
     logger ERROR (RequestError url e);;
     mret None).

(** [" ".join(p.get_text(strip=True) for p in tags
             if p.get_text(strip=True))] *)
Definition joined_text (tags : list (Tag W)) : pystr :=
  join [space]
    (List.filter (λ t, negb (falsy t)) (get_text W <$> tags)).

(** [tag.get(name)] when it is a non-empty string *)
Definition true_attr (tag : Tag W) (name : string) : option pystr :=
  match tag_get W tag name with
  | Some v => if falsy v then None else Some v
  | None => None
  end.

(** The part shared by the BBC, ARY, Samaa and Dawn extractors:
    heading from the first [h1], picture from the Open Graph tag. *)
Definition h1_heading (soup : Tag W) : pystr :=
  match find W soup (sel "h1") with
  | Some h1 => get_text W h1
  | None => py "No Heading"
  end.

Definition og_image (soup : Tag W) : option pystr :=
  match find W soup sel_og_image with
  | Some og => true_attr og "content"
  | None => None
  end.

(** Text of the paragraphs of [content] when there is such an element
    and the text is non-empty, else of all paragraphs of the document. *)
Definition content_or_all_paragraphs (soup : Tag W)
    (content : option (Tag W)) : pystr :=
  let text :=
    match content with
    | Some content => joined_text (find_all W content (sel "p"))
    | None => []
    end in
  if falsy text then joined_text (find_all W soup (sel "p")) else text.

(** *** Geo *)

Definition geo_heading (soup : Tag W) : pystr :=
  let heading := py "No Heading" in
  let heading :=
    match find W soup (sel_class "div" "heading_H") with
    | Some heading_element =>
        match find W heading_element (sel "h1") with
        | Some h1 => get_text W h1
        | None => heading
        end
    | None => heading
    end in
  if bool_decide (heading = py "No Heading") then
    match find W soup (sel "h1") with
    | Some h1_tag => get_text W h1_tag
    | None => heading
    end
  else heading.

Definition geo_image (soup : Tag W) : option pystr :=
  let image :=
    match find W soup (sel_class "div" "content-area") with
    | Some content_area =>
        match find W content_area (sel "img") with
        | Some img_tag => true_attr img_tag "src"
        | None => None
        end
    | None => None
    end in
  match image with
  | Some _ => image
  | None => og_image soup
  end.

Definition geo_text (soup : Tag W) : pystr :=
  let text :=
    match find W soup (sel_class "div" "content-area") with
    | Some content_area => joined_text (find_all W content_area (sel "p"))
    | None => []
    end in
  if falsy text then
    match or_else (find W soup (sel "article"))
                  (find W soup (sel_class "div" "story-detail")) with
    | Some article_body => joined_text (find_all W article_body (sel "p"))
    | None => text
    end
  else text.

(** *** BBC *)

Definition bbc_text (soup : Tag W) : pystr :=
  let text_blocks := find_all W soup sel_text_block in
  let text :=
    match text_blocks with
    | [] => []
    | _ => joined_text text_blocks
    end in
  if falsy text then joined_text (find_all W soup (sel "p")) else text.

(** *** ARY, Samaa, Dawn *)

Definition ary_text (soup : Tag W) : pystr :=
  content_or_all_paragraphs soup
    (find W soup (sel_class "div" "td-post-content")).

Definition samaa_text (soup : Tag W) : pystr :=
  content_or_all_paragraphs soup
    (or_else (find W soup (sel_class "div" "story-content"))
             (find W soup (sel_class "div" "news-detail"))).

Definition dawn_text (soup : Tag W) : pystr :=
  content_or_all_paragraphs soup
    (or_else (find W soup (sel_class "div" "story__content"))
             (find W soup (sel_class "div" "story__body"))).

(** The name stored in the record's ["source"] field. *)
Definition source_name (src : Source) : pystr :=
  match src with
  | Geo => py "geo"
  | BBC => py "bbc"
  | ARY => py "ary"
  | Samaa => py "samaa"
  | Dawn => py "dawn"
  end.

Definition heading_of (src : Source) (soup : Tag W) : pystr :=
  match src with
  | Geo => geo_heading soup
  | _ => h1_heading soup
  end.

Definition image_of (src : Source) (soup : Tag W) : option pystr :=
  match src with
  | Geo => geo_image soup
  | _ => og_image soup
  end.

(** The body text an extractor works with. *)
Definition body_text (src : Source) (soup : Tag W) : pystr :=
  match src with
  | Geo => geo_text soup
  | BBC => bbc_text soup
  | ARY => ary_text soup
  | Samaa => samaa_text soup
  | Dawn => dawn_text soup
  end.

(** The five methods [_process_geo_article], ..., [_process_dawn_article]
    have one shape and differ in the three field extractors and the
    source name. *)
Definition process_article (src : Source) (url : pystr)
    : M (option Dict) :=
  html ← fetch_html url;
  match html with
  | None => mret None
  | Some html =>
      if falsy html then mret None
      else
        soup ← lift (BeautifulSoup W html);
        let heading := heading_of src soup in
        let image := image_of src soup in
        let text := body_text src soup in
        if falsy text || (len text <? 50)%Z then
          logger WARNING (NotEnoughText src url);;
          mret None
        else
          summary ← summarize_text W text;
          mret (Some (headline_dict (source_name src) url image heading
                        summary))
  end.

Definition _process_geo_article := process_article Geo.
Definition _process_bbc_article := process_article BBC.
Definition _process_ary_article := process_article ARY.
Definition _process_samaa_article := process_article Samaa.
Definition _process_dawn_article := process_article Dawn.

End Extraction.

(** ** Search orchestration and the Flask routes *)

(** The per-source search methods of [NewsScraper]. *)
Record NewsScraper := {
  search_geo_news : pystr → M (list Dict);
  search_bbc_news : pystr → M (list Dict);
  search_ary_news : pystr → M (list Dict);
  search_samaa_news : pystr → M (list Dict);
  search_dawn_news : pystr → M (list Dict)
}.

Definition search_source (scraper : NewsScraper) (src : Source)
    : pystr → M (list Dict) :=
  match src with
  | Geo => search_geo_news scraper
  | BBC => search_bbc_news scraper
  | ARY => search_ary_news scraper
  | Samaa => search_samaa_news scraper
  | Dawn => search_dawn_news scraper
  end.

(** JSON bodies of the responses. *)
Inductive Json :=
  | JsonError (error : pystr)
  | JsonHeadlines (headlines : list Dict)
  | JsonSearch (query source : pystr) (count : nat) (results : list Dict).

Record Response := { http_status : Z; body : Json }.

(** [request.args] *)
Abbreviation Args := (gmap string pystr).

Section App.
Context (W : World) (scraper : NewsScraper).

Definition search_all_sources (query : pystr) : M (list Dict) :=
  let all_results := [] in
  logger INFO (SearchingAllSources query);;
  logger INFO (SearchingSource Geo);;
  found ← search_geo_news scraper query;
  let all_results := all_results ++ found in
  logger INFO (SearchingSource BBC);;
  found ← search_bbc_news scraper query;
  let all_results := all_results ++ found in
  logger INFO (SearchingSource ARY);;
  found ← search_ary_news scraper query;
  let all_results := all_results ++ found in
  logger INFO (SearchingSource Samaa);;
  found ← search_samaa_news scraper query;
  let all_results := all_results ++ found in
  logger INFO (SearchingSource Dawn);;
  found ← search_dawn_news scraper query;
  let all_results := all_results ++ found in
  logger INFO (TotalSearchResults (length all_results));;
  mret all_results.

(** [int(limit_param) if limit_param else MAX_ARTICLES], with
    [ValueError] handled *)
Definition get_news_limit (args : Args) : M Z :=
  try_except_class is_value_error
    (let limit_param := args !! "limit" in
     match limit_param with
     | Some p =>
         if falsy p then mret MAX_ARTICLES
         else
           match py_int W p with
           | Some n => mret n
           | None =>
               raise {| exn_class := ValueError;
                        exn_msg := py "invalid literal for int()" |}
           end
     | None => mret MAX_ARTICLES
     end)
    (λ _, mret MAX_ARTICLES).

Definition get_news (args : Args) : M Response :=
  limit ← get_news_limit args;
  headlines ← get_all_headlines limit;
  mret {| http_status := 200; body := JsonHeadlines headlines |}.

(** What [search_news] does once [results] is bound. *)
Definition save_and_respond (query source : pystr) (results : list Dict)
    : M Response :=
  for_each results tt (λ _ result, save_headline result);;
  mret {| http_status := 200;
          body := JsonSearch query source (length results) results |}.

Definition search_news (args : Args) : M Response :=
  let query := strip (default [] (args !! "query")) in
  let source := str_lower W (default (py "all") (args !! "source")) in
  if falsy query then
    mret {| http_status := 400;
            body := JsonError (py "Query parameter is required") |}
  else
    try_except
      (if bool_decide (source = py "geo") then
         results ← search_geo_news scraper query;
         save_and_respond query source results
       else if bool_decide (source = py "bbc") then
         results ← search_bbc_news scraper query;
         save_and_respond query source results
       else if bool_decide (source = py "ary") then
         results ← search_ary_news scraper query;
         save_and_respond query source results
       else if bool_decide (source = py "samaa") then
         results ← search_samaa_news scraper query;
         save_and_respond query source results
       else if bool_decide (source = py "dawn") then
         results ← search_dawn_news scraper query;
         save_and_respond query source results
       else if bool_decide (source = py "all") then
         results ← search_all_sources query;
         save_and_respond query source results
       else
         mret {| http_status := 400;
                 body := JsonError (py "Unknown source '" ++ source
                                    ++ py "'") |})
      (λ e,
       logger ERROR (SearchEndpointError e);;
       mret {| http_status := 500; body := JsonError (exn_msg e) |}).

End App.

(** ** Vocabulary of the properties *)

(** A string of white space only (the empty string included). *)
Definition blank (s : pystr) : bool := forallb isspace s.

(** A non-empty string that neither starts nor ends with white space. *)
Definition trimmed (s : pystr) : Prop :=
  match s with
  | [] => False
  | c :: _ => isspace c = false
  end
  ∧ match last s with
    | Some c => isspace c = false
    | None => False
    end.

(** What [str.split()] returns: non-empty runs of visible characters. *)
Definition is_word (w : pystr) : Prop :=
  w ≠ [] ∧ Forall (λ c, isspace c = false) w.

(** A chunk within the bound, or else a single sentence of the text that
    is itself over the bound. *)
Definition chunk_within (max_chars : Z) (sentences : list pystr)
    (chunk : pystr) : Prop :=
  (len chunk ≤ max_chars)%Z
  ∨ ((max_chars < len chunk)%Z
     ∧ ∃ sentence, sentence ∈ sentences ∧ chunk = strip sentence).

(** Invariant of the loop of [_chunk_text] on [(chunks, current)]. *)
Definition chunk_inv (max_chars : Z) (sentences : list pystr)
    (st : list pystr * list pystr) : Prop :=
  Forall trimmed st.1
  ∧ Forall (chunk_within max_chars sentences) st.1
  ∧ Forall trimmed st.2
  ∧ (st.2 = []
     ∨ (len (join dot_space st.2) ≤ max_chars)%Z
     ∨ ∃ sentence, sentence ∈ sentences ∧ st.2 = [strip sentence]).

(** The partial summary [summarize_text] keeps for one chunk. *)
Definition partial_summary (engine : Engine) (chunk : pystr) : pystr :=
  match engine chunk 120%Z 40%Z with
  | Ok summary => strip summary
  | Raise _ => take 300 chunk
  end.

(** The rows stored for [url]. *)
Definition has_url (url : pystr) (r : Row) : bool :=
  bool_decide (row_url r = PStr url).

(** The row [save_headline] writes for the record [d] at time [now]. *)
Definition row_of (id : Z) (d : Dict) (now : Z) : Row :=
  {| row_id := id;
     row_source := dict_get_or d "source" (PStr (py "unknown"));
     row_url := dict_get d "url";
     row_picture := dict_get d "picture";
     row_heading := dict_get d "heading";
     row_blog := dict_get d "blog";
     row_timestamp := now |}.

(** The state when the clock shows [now]. *)
Definition set_clock (now : Z) (st : State) : State :=
  {| log := log st;
     _summarizer := _summarizer st;
     headlinesData := headlinesData st;
     clock := now |}.

(** The engine [get_summarizer] hands out in state [st]: the one already
    loaded, else the one the loader builds, if it builds one. *)
Definition engine_in_use (W : World) (st : State) : option Engine :=
  match _summarizer st with
  | Some engine => Some engine
  | None =>
      match pipeline W with
      | Ok engine => Some engine
      | Raise _ => None
      end
  end.

(** An engine whose summaries always show something. *)
Definition never_blank (engine : Engine) : Prop :=
  ∀ text max_length min_length summary,
    engine text max_length min_length = Ok summary → blank summary = false.

(** The source selectors [search_news] accepts, after lower-casing. *)
Definition known_selectors : list pystr :=
  [py "geo"; py "bbc"; py "ary"; py "samaa"; py "dawn"; py "all"].

Definition source_order : list Source := [Geo; BBC; ARY; Samaa; Dawn].

(** [gathers scraper query srcs st found st']: started in [st], the
    searches of [srcs], each announced in the log and run in turn, all
    return, with [found] as their results in order, and leave [st']. *)
Inductive gathers (scraper : NewsScraper) (query : pystr)
    : list Source → State → list Dict → State → Prop :=
  | gathers_nil st : gathers scraper query [] st [] st
  | gathers_cons src srcs st found st1 more st2 :
      search_source scraper src query
        (add_log st (INFO, SearchingSource src)) = (Ok found, st1) →
      gathers scraper query srcs st1 more st2 →
      gathers scraper query (src :: srcs) st (found ++ more) st2.

(** ** Sample environments *)

Module Sample.

(** Lower-casing of ASCII letters. *)
Definition ascii_lower (s : pystr) : pystr :=
  (λ c, if ((65 <=? c) && (c <=? 90))%N then (c + 32)%N else c) <$> s.

(** Decimal numerals made of ASCII digits only. *)
Definition digits_value (s : pystr) : option Z :=
  match s with
  | [] => None
  | _ =>
      foldl (λ acc c,
               match acc with
               | Some n =>
                   if ((48 <=? c) && (c <=? 57))%N
                   then Some (10 * n + Z.of_N (c - 48))%Z
                   else None
               | None => None
               end) (Some 0%Z) s
  end.

Definition model_missing : exn :=
  {| exn_class := OtherException; exn_msg := py "model files not found" |}.

Definition markup_rejected : exn :=
  {| exn_class := OtherException; exn_msg := py "markup rejected" |}.

Definition fixed_engine : Engine := λ _ _ _, Ok (py "A short summary.").

(** An engine whose summaries are empty. *)
Definition silent_engine : Engine := λ _ _ _, Ok [].

(** A world without network trouble in which every page is its own
    only paragraph and no model can be loaded. *)
Definition world : World :=
  {| pipeline := Raise model_missing;
     requests_get := λ url,
       Ok {| status_code := 200; text := py "Too short." |};
     Tag := pystr;
     BeautifulSoup := λ html, Ok html;
     find := λ _ _, None;
     find_all := λ doc _, [doc];
     get_text := λ doc, strip doc;
     tag_get := λ _ _, None;
     str_lower := ascii_lower;
     py_int := digits_value |}.

(** The same world with a server that answers 404. *)
Definition world_404 : World :=
  {| pipeline := pipeline world;
     requests_get := λ url,
       Ok {| status_code := 404; text := py "Not Found" |};
     Tag := Tag world;
     BeautifulSoup := BeautifulSoup world;
     find := find world;
     find_all := find_all world;
     get_text := get_text world;
     tag_get := tag_get world;
     str_lower := str_lower world;
     py_int := py_int world |}.

Definition start : State :=
  {| log := []; _summarizer := None;
     headlinesData := Some {| rows := []; sequence := 0 |}; clock := 1000 |}.

Definition start_loaded : State :=
  {| log := []; _summarizer := Some fixed_engine;
     headlinesData := Some {| rows := []; sequence := 0 |}; clock := 1000 |}.

Definition start_silent : State :=
  {| log := []; _summarizer := Some silent_engine;
     headlinesData := Some {| rows := []; sequence := 0 |}; clock := 1000 |}.

Definition story (url blog : string) : Dict :=
  headline_dict (py "geo") (py url) None (py "Heading") (py blog).

(** A scraper whose Geo search finds one story, whose BBC search
    raises, and whose other searches each find one story. *)
Definition scraper_bbc_fails : NewsScraper :=
  {| search_geo_news := λ _, mret [story "https://www.geo.tv/latest/1" "one"];
     search_bbc_news := λ _, raise markup_rejected;
     search_ary_news := λ _,
       logger INFO (ScraperMessage (py "ary ran"));;
       mret [story "https://arynews.tv/3" "three"];
     search_samaa_news := λ _,
       mret [story "https://www.samaa.tv/news/4" "four"];
     search_dawn_news := λ _,
       mret [story "https://www.dawn.com/news/5" "five"] |}.

(** A scraper whose every search leaves a mark in the log. *)
Definition scraper_marking : NewsScraper :=
  {| search_geo_news := λ _,
       logger INFO (ScraperMessage (py "geo ran"));; mret [];
     search_bbc_news := λ _,
       logger INFO (ScraperMessage (py "bbc ran"));; mret [];
     search_ary_news := λ _,
       logger INFO (ScraperMessage (py "ary ran"));; mret [];
     search_samaa_news := λ _,
       logger INFO (ScraperMessage (py "samaa ran"));; mret [];
     search_dawn_news := λ _,
       logger INFO (ScraperMessage (py "dawn ran"));; mret [] |}.

(** 120 short sentences: 719 characters once normalized. *)
Definition long_text : pystr :=
  mjoin (replicate 120 (py "word. ")).

Definition floods : pystr := py "floods".

Definition short_page : HttpResponse :=
  {| status_code := 200; text := py "Too short." |}.

End Sample.

(** * The rest of the program *)

(** ** Vocabulary of further properties *)

(** The sentences [_chunk_text] packs: the pieces of the normalized text
    between [". "], stripped, without the empty ones. *)
Definition packed_sentences (text : pystr) : list pystr :=
  List.filter (λ s, negb (falsy s))
    (strip <$> split_sentences (normalize text)).

(** The url of a row, when it is not [NULL]. *)
Definition stored_url (r : Row) : option pystr :=
  match row_url r with
  | PStr url => Some url
  | PNone => None
  end.

(** What [url TEXT UNIQUE] and [id INTEGER PRIMARY KEY AUTOINCREMENT]
    demand of a table: no two rows with the same id, none with an id
    above the counter, no two rows with the same url. *)
Definition table_ok (t : Table) : Prop :=
  NoDup (row_id <$> rows t)
  ∧ Forall (λ r, row_id r ≤ sequence t)%Z (rows t)
  ∧ NoDup (omap stored_url (rows t)).

(** The rows [get_all_headlines] reads: newest first, rows of one
    timestamp by id, cut at the limit. *)
Definition selected_rows (limit : Z) (t : Table) : list Row :=
  sql_limit limit (merge_sort newer_first (rows t)).

(** ** More of Python's strings *)

(** [s.startswith(prefix)] *)
Fixpoint startswith (prefix s : pystr) : bool :=
  match prefix with
  | [] => true
  | a :: prefix' =>
      match s with
      | b :: s' => (a =? b)%N && startswith prefix' s'
      | [] => false
      end
  end.

(** [s.endswith(suffix)] *)
Definition endswith (suffix s : pystr) : bool :=
  startswith (reverse suffix) (reverse s).

(** [sub in s] *)
Fixpoint contains (sub s : pystr) : bool :=
  startswith sub s
  || match s with
     | [] => false
     | _ :: s' => contains sub s'
     end.

(** [s.replace(old, new)] for a non-empty [old]: the occurrences of [old]
    found scanning from the left, none overlapping another, are replaced;
    [skip] counts the characters of an occurrence still to be passed. *)
Fixpoint replace_from (old new : pystr) (skip : nat) (s : pystr) : pystr :=
  match s with
  | [] => []
  | c :: s' =>
      match skip with
      | S k => replace_from old new k s'
      | O =>
          if startswith old s
          then new ++ replace_from old new (length old - 1) s'
          else c :: replace_from old new 0 s'
      end
  end.

(** [s.replace(old, new)]; with an empty [old], [new] is put before
    every character and at the end. *)
Definition replace (old new s : pystr) : pystr :=
  match old with
  | [] => new ++ mjoin ((λ c, c :: new) <$> s)
  | _ => replace_from old new 0 s
  end.

(** [str(n)] for a length *)
Definition str_nat (n : nat) : pystr :=
  py (NilEmpty.string_of_uint (Nat.to_uint n)).

(** [links.add(href)] on a set kept as the list of its members in the
    order they came in. *)
Definition set_add (href : pystr) (links : list pystr) : list pystr :=
  if bool_decide (href ∈ links) then links else links ++ [href].

(** ** The machine the scraper runs on *)

(** How a call into Selenium fails: [TimeoutException] is one kind of
    [WebDriverException]; anything else is some other [Exception]. *)
Inductive SeleniumKind := Timeout | WebDriver | OtherKind.

Record SeleniumError := { selenium_exn : exn; selenium_kind : SeleniumKind }.

Definition is_webdriver_exception (f : SeleniumError) : bool :=
  match selenium_kind f with
  | Timeout | WebDriver => true
  | OtherKind => false
  end.

Definition is_timeout_exception (f : SeleniumError) : bool :=
  match selenium_kind f with
  | Timeout => true
  | _ => false
  end.

Record Platform (W : World) := {
  (** [[a["href"] for a in soup.find_all("a", href=True)]] *)
  anchors_href : Tag W → list pystr;
  (** [list(links)] for a set with the given members: some order of
      them *)
  iteration_order : list pystr → list pystr;
  iteration_order_perm : ∀ links, iteration_order links ≡ₚ links;
  (** [os.path.exists(path)] *)
  path_exists : pystr → bool;
  (** [ChromeDriverManager().install()] *)
  chromedriver_install : Result pystr;
  (** [glob.glob(os.path.join(os.path.dirname(path),
      "chromedriver*.exe"))] *)
  exe_candidates : pystr → list pystr;
  (** browser sessions *)
  Driver : Type;
  (** [webdriver.Chrome(service=Service(driver_path), options=options)] *)
  webdriver_Chrome : pystr → SeleniumError + Driver;
  (** [driver.set_page_load_timeout(seconds)] *)
  set_page_load_timeout : Driver → Z → Result unit;
  (** [driver.get(url)] *)
  driver_get : Driver → pystr → SeleniumError + unit;
  (** [driver.page_source] once [url] is loaded *)
  page_source : Driver → pystr → Result pystr;
  (** [driver.quit()] *)
  driver_quit : Driver → Result unit
}.
Arguments anchors_href {W}.
Arguments iteration_order {W}.
Arguments iteration_order_perm {W}.
Arguments path_exists {W}.
Arguments chromedriver_install {W}.
Arguments exe_candidates {W}.
Arguments Driver {W}.
Arguments webdriver_Chrome {W}.
Arguments set_page_load_timeout {W}.
Arguments driver_get {W}.
Arguments page_source {W}.
Arguments driver_quit {W}.

Definition REQUEST_TIMEOUT : Z := 15.

(** Signs used in the log. *)
Definition rocket : pystr := [128640%N].
Definition wrench : pystr := [128295%N].
Definition check_mark : pystr := [9989%N].
Definition cross_mark : pystr := [10060%N].
Definition warning_sign : pystr := [9888%N; 65039%N].
Definition magnifier : pystr := [128269%N].
Definition arrows : pystr := [128260%N].

(** ** ChromeDriver *)

Definition local_path : pystr := py "D:\Chromedriver\chromedriver.exe".

(** The value of [CHROME_DRIVER_PATH] when it counts as true. *)
Definition cached_path (cache : option pystr) : option pystr :=
  match cache with
  | Some path => if falsy path then None else Some path
  | None => None
  end.

Section ChromeDriver.
Context {W : World} (P : Platform W).

(** [_init_chromedriver()]; the module variable [CHROME_DRIVER_PATH] is
    passed in as [cache] and its new value is returned beside the path.
    The lock is not modelled, so the second test of the variable reads
    what the first read. *)
Definition _init_chromedriver (cache : option pystr)
    : M (pystr * option pystr) :=
  match cached_path cache with
  | Some path => mret (path, cache)
  | None =>
      if path_exists P local_path then
        logger INFO (ScraperMessage
          (rocket ++ py " Using local ChromeDriver at: " ++ local_path));;
        mret (local_path, Some local_path)
      else
        logger WARNING (ScraperMessage
          (py "Local ChromeDriver not found at: " ++ local_path));;
        try_except
          (logger INFO (ScraperMessage
             (wrench ++ py " Initializing ChromeDriver via WebDriverManager..."));;
           path ← lift (chromedriver_install P);
           path ←
             (if negb (endswith (py ".exe") (str_lower W path)) then
                match exe_candidates P path with
                | candidate :: _ =>
                    logger INFO (ScraperMessage
                      (check_mark ++ py " Resolved ChromeDriver executable: "
                       ++ candidate));;
                    mret candidate
                | [] =>
                    raise {| exn_class := OtherException;
                             exn_msg :=
                               py "ChromeDriverManager returned non-executable path: "
                               ++ path |}
                end
              else mret path);
           logger INFO (ScraperMessage
             (check_mark ++ py " Using ChromeDriver at: " ++ path));;
           mret (path, Some path))
          (λ e,
           logger ERROR (ScraperMessage
             (cross_mark
              ++ py " Failed to initialize ChromeDriver via WebDriverManager: "
              ++ exn_msg e));;
           logger INFO (ScraperMessage
             (warning_sign ++ py " Falling back to 'chromedriver' from PATH."));;
           mret (py "chromedriver", Some (py "chromedriver")))
  end.

(** [NewsScraper._create_driver()].  An exception of the method is
    returned as a [Raise] beside the new value of [CHROME_DRIVER_PATH],
    which [_init_chromedriver] has set by then. *)
Definition _create_driver (cache : option pystr)
    : M (Result (Driver P) * option pystr) :=
  '(driver_path, cache) ← _init_chromedriver cache;
  match webdriver_Chrome P driver_path with
  | inl failure =>
      (if is_webdriver_exception failure then
         logger ERROR (ScraperMessage
           (cross_mark ++ py " WebDriverException when starting Chrome: "
            ++ exn_msg (selenium_exn failure)))
       else mret tt);;
      mret (Raise (selenium_exn failure), cache)
  | inr driver =>
      match set_page_load_timeout P driver REQUEST_TIMEOUT with
      | Ok _ => mret (Ok driver, cache)
      | Raise e => mret (Raise e, cache)
      end
  end.

End ChromeDriver.

(** ** The five searches *)

(** [html] when [if not html] does not turn it away. *)
Definition document (html : option pystr) : option pystr :=
  match html with
  | Some html => if falsy html then None else Some html
  | None => None
  end.

(** The loop bodies that sift the links of a search page; [links] is
    the set gathered so far, [href] the next anchor's target. *)
Definition geo_link (links : list pystr) (href : pystr) : list pystr :=
  if contains (py "/latest/") href then
    if startswith (py "https://www.geo.tv") href then set_add href links
    else if startswith (py "/") href
         then set_add (py "https://www.geo.tv" ++ href) links
         else links
  else links.

Definition bbc_link (links : list pystr) (href : pystr) : list pystr :=
  if contains (py "/news/") href
     && startswith (py "https://www.bbc.co.uk") href
  then set_add (replace (py "https://www.bbc.co.uk")
                  (py "https://www.bbc.com") href) links
  else links.

Definition ary_excluded : list pystr :=
  [py "/category/"; py "/tag/"; py "/videos"; py "/video"; py "/live";
   py "/author/"; py "/elections"].

Definition ary_link (links : list pystr) (href : pystr) : list pystr :=
  let href :=
    if startswith (py "/") href then py "https://arynews.tv" ++ href
    else href in
  if negb (startswith (py "https://arynews.tv") href) then links
  else if existsb (λ x, contains x href) ary_excluded then links
  else set_add href links.

Definition samaa_link (links : list pystr) (href : pystr) : list pystr :=
  let href :=
    if startswith (py "/") href then py "https://www.samaa.tv" ++ href
    else href in
  if negb (startswith (py "https://www.samaa.tv") href) then links
  else if negb (contains (py "/news/") href)
          && negb (contains (py "/pakistan/") href)
          && negb (contains (py "/latest-news/") href) then links
  else set_add href links.

Definition dawn_link (links : list pystr) (href : pystr) : list pystr :=
  let href :=
    if startswith (py "/") href then py "https://www.dawn.com" ++ href
    else href in
  if negb (startswith (py "https://www.dawn.com") href) then links
  else if negb (contains (py "/news/") href)
          && negb (contains (py "/latest-news/") href) then links
  else set_add href links.

(** The links kept from the anchors of a search page. *)
Definition links_of (src : Source) (hrefs : list pystr) : list pystr :=
  foldl
    (match src with
     | Geo => geo_link
     | BBC => bbc_link
     | ARY => ary_link
     | Samaa => samaa_link
     | Dawn => dawn_link
     end) [] hrefs.

(** The address of the search page. *)
Definition search_url (src : Source) (query : pystr) : pystr :=
  match src with
  | Geo => py "https://www.geo.tv/search/" ++ replace [space] (py "+") query
  | BBC =>
      py "https://www.bbc.co.uk/search?q=" ++ replace [space] (py "+") query
      ++ py "&filter=news"
  | ARY => py "https://arynews.tv/search/" ++ replace [space] (py "%20") query
  | Samaa =>
      py "https://www.samaa.tv/search/" ++ replace [space] (py "%20") query
  | Dawn =>
      py "https://www.dawn.com/search?"
      ++ py "cx=partner-pub-2646044137506720%3A7244554279&cof=FORID%3A10&ie=UTF-8&"
      ++ py "q=" ++ replace [space] (py "+") query
  end.

(** ARY's older search page. *)
Definition ary_fallback_url (query : pystr) : pystr :=
  py "https://arynews.tv/?s=" ++ replace [space] (py "+") query.

Definition source_label (src : Source) : pystr :=
  match src with
  | Geo => py "[Geo]"
  | BBC => py "[BBC]"
  | ARY => py "[ARY]"
  | Samaa => py "[Samaa]"
  | Dawn => py "[Dawn]"
  end.

Definition searching_for (src : Source) (query : pystr) : LogMsg :=
  ScraperMessage
    (magnifier ++ py " " ++ source_label src ++ py " Searching for: '"
     ++ query ++ py "'").

Definition found_results (src : Source) (n : nat) : LogMsg :=
  ScraperMessage
    (source_label src ++ py " Found " ++ str_nat n ++ py " search results").

Definition processing_error (src : Source) (href : pystr) (e : exn)
    : LogMsg :=
  ScraperMessage
    (source_label src
     ++ match src with
        | Geo => py " Error processing search article "
        | _ => py " Error processing search result "
        end
     ++ href ++ py ": " ++ exn_msg e).

Module Scraper.
Section Sites.
Context {W : World} (P : Platform W).

(** One iteration of [for href in list(links)[:10]]. *)
Definition process_link (src : Source) (headlines : list Dict)
    (href : pystr) : M (list Dict) :=
  try_except
    (article ← process_article W src href;
     match article with
     | Some article =>
         if bool_decide (article = ∅) then mret headlines
         else mret (headlines ++ [article])
     | None => mret headlines
     end)
    (λ e,
     logger ERROR (processing_error src href e);;
     mret headlines).

(** The last loop of every search. *)
Definition process_links (src : Source) (links : list pystr)
    : M (list Dict) :=
  for_each (take 10 (iteration_order P links)) [] (process_link src).

(** What the BBC, Samaa and Dawn searches do with the fetched search
    page, and the ARY search with the page it ended up with. *)
Definition search_in_page (src : Source) (html : pystr) : M (list Dict) :=
  soup ← lift (BeautifulSoup W html);
  let links := links_of src (anchors_href P soup) in
  logger INFO (found_results src (length links));;
  process_links src links.

(** The searches of BBC, Samaa and Dawn have one shape and differ in
    the address of the search page, the sifting of its links and the
    extractor. *)
Definition fetch_and_search (src : Source) (query : pystr)
    : M (list Dict) :=
  logger INFO (searching_for src query);;
  html ← fetch_html W (search_url src query);
  match document html with
  | None => mret []
  | Some html => search_in_page src html
  end.

Definition search_bbc_news : pystr → M (list Dict) := fetch_and_search BBC.
Definition search_samaa_news : pystr → M (list Dict) :=
  fetch_and_search Samaa.
Definition search_dawn_news : pystr → M (list Dict) := fetch_and_search Dawn.

Definition search_ary_news (query : pystr) : M (list Dict) :=
  logger INFO (searching_for ARY query);;
  html ← fetch_html W (search_url ARY query);
  html ←
    match document html with
    | None =>
        let fallback_url := ary_fallback_url query in
        logger INFO (ScraperMessage
          (arrows ++ py " [ARY] Trying fallback search: " ++ fallback_url));;
        fetch_html W fallback_url
    | Some _ => mret html
    end;
  match document html with
  | None =>
      logger ERROR (ScraperMessage
        (cross_mark
         ++ py " ARY search failed (no HTML from primary or fallback)"));;
      mret []
  | Some html => search_in_page ARY html
  end.

(** The part of [search_geo_news] under [try]: [None] stands for the
    [return []] on a timeout, [Some links] for reaching the end with the
    set [article_links]. *)
Definition geo_discover (driver : Driver P) (query : pystr)
    : M (option (list pystr)) :=
  try_except
    (let search_url := search_url Geo query in
     match driver_get P driver search_url with
     | inl failure =>
         if is_timeout_exception failure then
           logger ERROR (ScraperMessage
             (cross_mark ++ py " Timeout while loading Geo search page for '"
              ++ query ++ py "'"));;
           mret None
         else raise (selenium_exn failure)
     | inr _ =>
         source ← lift (page_source P driver search_url);
         soup ← lift (BeautifulSoup W source);
         mret (Some (links_of Geo (anchors_href P soup)))
     end)
    (λ e,
     logger ERROR (ScraperMessage
       (py "Search error for '" ++ query ++ py "' on Geo: " ++ exn_msg e));;
     mret (Some [])).

(** [search_geo_news(query)], with [CHROME_DRIVER_PATH] passed in and
    out as for [_create_driver]. *)
Definition search_geo_news (cache : option pystr) (query : pystr)
    : M (list Dict * option pystr) :=
  logger INFO (searching_for Geo query);;
  '(started, cache) ← _create_driver P cache;
  match started with
  | Raise e =>
      logger ERROR (ScraperMessage
        (py "Failed to initialize Selenium driver for search: "
         ++ exn_msg e));;
      mret ([], cache)
  | Ok driver =>
      article_links ← geo_discover driver query;
      try_except (lift (driver_quit P driver)) (λ _, mret tt);;
      match article_links with
      | None => mret ([], cache)
      | Some article_links =>
          logger INFO (ScraperMessage
            (py "[Geo] Found " ++ str_nat (length article_links)
             ++ py " articles for query: " ++ query));;
          headlines ← process_links Geo article_links;
          mret (headlines, cache)
      end
  end.

(** The scraper as one request sees it when [CHROME_DRIVER_PATH] holds
    [cache]. *)
Definition scraper (cache : option pystr) : NewsScraper :=
  Build_NewsScraper
    (λ query, found ← search_geo_news cache query; mret found.1)
    search_bbc_news search_ary_news search_samaa_news search_dawn_news.

End Sites.
Arguments process_link : clear implicits.
End Scraper.

(** The document a search has in hand after fetching [url]: the body of
    a 200 response when it is not empty. *)
Definition fetched_page (W : World) (url : pystr) : option pystr :=
  match requests_get W url with
  | Ok resp =>
      if (status_code resp =? 200)%Z then document (Some (text resp))
      else None
  | Raise _ => None
  end.

(** The search page a source's search parses: for ARY the older page
    stands in when the first address gives no document; the Geo search
    page is read through the browser, not fetched. *)
Definition search_page (W : World) (src : Source) (query : pystr)
    : option pystr :=
  match src with
  | Geo => None
  | ARY =>
      match fetched_page W (search_url ARY query) with
      | Some html => Some html
      | None => fetched_page W (ary_fallback_url query)
      end
  | _ => fetched_page W (search_url src query)
  end.

(** The searches that fetch their search page. *)
Definition fetching_search {W : World} (P : Platform W) (src : Source)
    : pystr → M (list Dict) :=
  match src with
  | ARY => Scraper.search_ary_news P
  | _ => Scraper.fetch_and_search P src
  end.

(** A record of source [src] for one of [links]. *)
Definition record_of (src : Source) (links : list pystr) (record : Dict)
    : Prop :=
  record !! "source" = Some (PStr (source_name src))
  ∧ ∃ link, link ∈ links ∧ record !! "url" = Some (PStr link).

(** ** More sample environments *)

Module Demo.

(** A machine without a local driver, whose driver manager hands out an
    executable, and whose browser always starts and loads. *)
Definition platform : Platform Sample.world :=
  {| anchors_href := λ _ : Tag Sample.world,
       [py "https://www.bbc.co.uk/news/1"; py "/news/2";
        py "https://www.bbc.co.uk/sport"; py "/latest/3"];
     iteration_order := λ links, links;
     iteration_order_perm := λ links, Permutation_refl links;
     path_exists := λ _, false;
     chromedriver_install := Ok (py "C:\drivers\chromedriver.EXE");
     exe_candidates := λ _, [];
     Driver := unit;
     webdriver_Chrome := λ _, inr tt;
     set_page_load_timeout := λ _ _, Ok tt;
     driver_get := λ _ _, inr tt;
     page_source := λ _ _, Ok (py "<html></html>");
     driver_quit := λ _, Ok tt |}.

(** The sample world with a parser that rejects every page. *)
Definition rejecting_world : World :=
  {| pipeline := pipeline Sample.world;
     requests_get := requests_get Sample.world;
     Tag := Tag Sample.world;
     BeautifulSoup := λ _, Raise Sample.markup_rejected;
     find := find Sample.world;
     find_all := find_all Sample.world;
     get_text := get_text Sample.world;
     tag_get := tag_get Sample.world;
     str_lower := str_lower Sample.world;
     py_int := py_int Sample.world |}.

Definition rejecting_platform : Platform rejecting_world :=
  {| anchors_href := λ _ : Tag rejecting_world, [];
     iteration_order := λ links, links;
     iteration_order_perm := λ links, Permutation_refl links;
     path_exists := λ _, true;
     chromedriver_install := Raise Sample.model_missing;
     exe_candidates := λ _, [];
     Driver := unit;
     webdriver_Chrome := λ _, inr tt;
     set_page_load_timeout := λ _ _, Ok tt;
     driver_get := λ _ _, inr tt;
     page_source := λ _ _, Ok [];
     driver_quit := λ _, Ok tt |}.

(** A world whose model loads. *)
Definition world_with_model : World :=
  {| pipeline := Ok Sample.fixed_engine;
     requests_get := requests_get Sample.world;
     Tag := Tag Sample.world;
     BeautifulSoup := BeautifulSoup Sample.world;
     find := find Sample.world;
     find_all := find_all Sample.world;
     get_text := get_text Sample.world;
     tag_get := tag_get Sample.world;
     str_lower := str_lower Sample.world;
     py_int := py_int Sample.world |}.

(** 100 short sentences: 599 characters once normalized. *)
Definition medium_text : pystr := mjoin (replicate 100 (py "word. ")).

Definition geo_url : pystr := py "https://www.geo.tv/latest/1".
Definition bbc_url : pystr := py "https://www.bbc.com/news/2".

Definition geo_story : Dict :=
  headline_dict (py "geo") geo_url None (py "Heading") (py "one").

Definition bbc_story : Dict :=
  headline_dict (py "bbc") bbc_url None (py "Heading") (py "two").

(** A state whose table holds the Geo story. *)
Definition with_geo_story : State :=
  snd (save_headline geo_story Sample.start).

Definition geo_table : Table :=
  default {| rows := []; sequence := 0 |} (headlinesData with_geo_story).

(** A state in which the table has not been created. *)
Definition no_table : State :=
  {| log := []; _summarizer := None; headlinesData := None; clock := 1000 |}.


Definition bbc_request : Args :=
  <["query" := Sample.floods]> (<["source" := py "BBC"]> ∅).

Definition limit_request : Args := <["limit" := py "7"]> ∅.

(** Three stories saved within one second. *)
Definition tied_story (n : nat) : Dict :=
  headline_dict (py "dawn") (py "https://www.dawn.com/news/" ++ str_nat n)
    None (py "Heading") (py "tied").

Definition with_tied_stories : State :=
  snd (for_each [tied_story 0; tied_story 1; tied_story 2] tt
         (λ _ result, save_headline result) Sample.start).

Definition tied_table : Table :=
  default {| rows := []; sequence := 0 |} (headlinesData with_tied_stories).

(** The sample world with a server whose pages are empty. *)
Definition world_blank_page : World :=
  {| pipeline := pipeline Sample.world;
     requests_get := λ url, Ok {| status_code := 200; text := [] |};
     Tag := Tag Sample.world;
     BeautifulSoup := BeautifulSoup Sample.world;
     find := find Sample.world;
     find_all := find_all Sample.world;
     get_text := get_text Sample.world;
     tag_get := tag_get Sample.world;
     str_lower := str_lower Sample.world;
     py_int := py_int Sample.world |}.

(** A page the parser rejects and the text of an article. *)
Definition broken_page : pystr := py "<![broken".

Definition article_page : pystr :=
  py "Heavy rain has flooded the valley and the roads are closed today.".

(** A world in which the BBC search page for floods is the broken page
    and every other page is the article, one [article] element with one
    paragraph; the parser rejects the broken page only. *)
Definition world_bbc_broken : World :=
  {| pipeline := pipeline Sample.world;
     requests_get := λ url,
       Ok {| status_code := 200;
             text := if bool_decide (url = search_url BBC Sample.floods)
                     then broken_page else article_page |};
     Tag := Tag Sample.world;
     BeautifulSoup := λ html,
       if bool_decide (html = broken_page)
       then Raise Sample.markup_rejected else Ok html;
     find := λ doc selector,
       if bool_decide (sel_name selector = Some "article")
       then Some doc else None;
     find_all := find_all Sample.world;
     get_text := get_text Sample.world;
     tag_get := tag_get Sample.world;
     str_lower := str_lower Sample.world;
     py_int := py_int Sample.world |}.

(** Its machine: the browser starts and loads, and every parsed page
    has one anchor, to a Geo article. *)
Definition platform_bbc_broken : Platform world_bbc_broken :=
  {| anchors_href := λ _ : Tag world_bbc_broken, [py "/latest/1-floods"];
     iteration_order := λ links, links;
     iteration_order_perm := λ links, Permutation_refl links;
     path_exists := λ _, true;
     chromedriver_install := Raise Sample.model_missing;
     exe_candidates := λ _, [];
     Driver := unit;
     webdriver_Chrome := λ _, inr tt;
     set_page_load_timeout := λ _ _, Ok tt;
     driver_get := λ _ _, inr tt;
     page_source := λ _ _, Ok (py "<html></html>");
     driver_quit := λ _, Ok tt |}.

(** The record the Geo search of that machine finds. *)
Definition geo_floods_story : Dict :=
  headline_dict (py "geo") (py "https://www.geo.tv/latest/1-floods") None
    (py "No Heading") article_page.

End Demo.

(** * Properties *)

(** ** Strings *)

Lemma blank_app s t : blank (s ++ t) = blank s && blank t.
Proof. unfold blank. apply forallb_app. Qed.

Lemma blank_false_elem s :
  blank s = false ↔ ∃ c, c ∈ s ∧ isspace c = false.
Proof.
  induction s as [|a s IH]; simpl.
  - split; [discriminate | intros (c & Hc & _); inversion Hc].
  - destruct (isspace a) eqn:Ha; simpl.
    + rewrite IH. split.
      * intros (c & Hc & Hs). exists c. split; [by right | done].
      * intros (c & Hc & Hs). apply elem_of_cons in Hc as [-> | Hc];
          [congruence | eauto].
    + split; [intros _; exists a; split; [by left | done] | done].
Qed.

Lemma falsy_nil s : falsy s = true ↔ s = [].
Proof. by destruct s. Qed.

Lemma falsy_false s : falsy s = false ↔ s ≠ [].
Proof. by destruct s. Qed.

Lemma len_nonneg s : (0 ≤ len s)%Z.
Proof. unfold len. lia. Qed.

Lemma len_pos s : (0 < len s)%Z → s ≠ [].
Proof. intros H ->. unfold len in H. simpl in H. lia. Qed.

Lemma lstrip_blank s : blank s = true → lstrip s = [].
Proof.
  induction s as [|a s IH]; simpl; [done |].
  destruct (isspace a); simpl; [done | discriminate].
Qed.

Lemma lstrip_not_blank s :
  blank s = false → ∃ c r, lstrip s = c :: r ∧ isspace c = false.
Proof.
  induction s as [|a s IH]; simpl; [discriminate |].
  destruct (isspace a) eqn:Ha; simpl; [done | eauto].
Qed.

Lemma lstrip_head c s : isspace c = false → lstrip (c :: s) = c :: s.
Proof. intros H. simpl. by rewrite H. Qed.

(** Stripping on the left a string that ends in a visible character
    keeps that character, and what is left starts with a visible one. *)
Lemma lstrip_snoc a c :
  isspace c = false →
  ∃ a', lstrip (a ++ [c]) = a' ++ [c]
        ∧ match a' with [] => True | d :: _ => isspace d = false end.
Proof.
  intros Hc. induction a as [|x a IH]; simpl.
  - rewrite Hc. by exists [].
  - destruct (isspace x) eqn:Hx; [done |].
    exists (x :: a). by rewrite Hx.
Qed.

Lemma trimmed_inv s :
  trimmed s →
  ∃ c r d,
    s = c :: r ∧ isspace c = false ∧ last s = Some d ∧ isspace d = false.
Proof.
  intros [Hh Hl]. destruct s as [|c r]; [done |].
  destruct (last (c :: r)) as [d|] eqn:Hd; [|done].
  by exists c, r, d.
Qed.

Lemma trimmed_not_nil s : trimmed s → s ≠ [].
Proof. by intros [H _] ->. Qed.

Lemma trimmed_not_blank s : trimmed s → blank s = false.
Proof.
  intros (c & r & d & -> & Hc & _)%trimmed_inv. simpl. by rewrite Hc.
Qed.

Lemma trimmed_strip s : trimmed s → strip s = s.
Proof.
  intros (c & r & d & -> & Hc & Hl & Hd)%trimmed_inv.
  unfold strip, rstrip. rewrite lstrip_head by done.
  apply last_Some in Hl as [s0 Hs0]. rewrite Hs0.
  rewrite reverse_snoc, lstrip_head by done.
  by rewrite reverse_cons, reverse_involutive.
Qed.

Lemma strip_blank s : blank s = true → strip s = [].
Proof. intros H. unfold strip. by rewrite lstrip_blank. Qed.

Lemma strip_trimmed s : blank s = false → trimmed (strip s).
Proof.
  intros (c & r & Hs & Hc)%lstrip_not_blank.
  unfold strip, rstrip. rewrite Hs, reverse_cons.
  destruct (lstrip_snoc (reverse r) c Hc) as (a' & -> & Ha').
  rewrite reverse_snoc. split; [done |].
  rewrite last_cons, last_reverse.
  by destruct a'.
Qed.

Lemma strip_falsy s : falsy (strip s) = blank s.
Proof.
  destruct (blank s) eqn:Hb.
  - by rewrite strip_blank.
  - apply falsy_false, trimmed_not_nil, strip_trimmed, Hb.
Qed.

Lemma blank_strip s : blank (strip s) = blank s.
Proof.
  destruct (blank s) eqn:Hb.
  - by rewrite strip_blank.
  - by apply trimmed_not_blank, strip_trimmed.
Qed.

Lemma join_trimmed sep parts :
  parts ≠ [] → Forall trimmed parts → trimmed (join sep parts).
Proof.
  induction parts as [|p [|q rest] IH]; intros Hne Hall; [done | |].
  - simpl. by inversion Hall.
  - inversion Hall as [|? ? Hp Hrest]; subst.
    specialize (IH ltac:(done) Hrest).
    change (join sep (p :: q :: rest)) with (p ++ sep ++ join sep (q :: rest)).
    destruct Hp as [Hh Hl]. destruct IH as [_ IHl].
    split.
    + destruct p; [done | exact Hh].
    + rewrite !last_app.
      by destruct (last (join sep (q :: rest))).
Qed.

Lemma word_trimmed w : is_word w → trimmed w.
Proof.
  intros [Hne Hall]. split.
  - destruct w; [done |]. by inversion Hall.
  - destruct (last w) as [d|] eqn:Hd.
    + apply last_Some_elem_of in Hd.
      by eapply Forall_forall in Hall.
    + by apply last_None in Hd.
Qed.

Lemma split_ws_from_words word s :
  Forall (λ c, isspace c = false) word →
  Forall is_word (split_ws_from word s).
Proof.
  revert word. induction s as [|c s IH]; intros word Hw; simpl.
  - destruct word; [done |]. constructor; [by split | constructor].
  - destruct (isspace c) eqn:Hc.
    + destruct word as [|x word]; [by apply IH |].
      constructor; [by split | by apply IH].
    + apply IH. apply Forall_app. split; [done |]. by constructor.
Qed.

Lemma split_ws_from_nil word s :
  split_ws_from word s = [] ↔ word = [] ∧ blank s = true.
Proof.
  revert word. induction s as [|c s IH]; intros word; simpl.
  - destruct word; (split; [done | by intros []]).
  - destruct (isspace c) eqn:Hc; simpl.
    + destruct word; [by rewrite IH | split; [done | by intros []]].
    + rewrite IH. split; [intros [H _] | intros [_ ?]; done].
      by destruct word.
Qed.

Lemma normalize_blank s : blank s = true → normalize s = [].
Proof.
  intros H. unfold normalize, split_ws.
  by rewrite (proj2 (split_ws_from_nil [] s)).
Qed.

Lemma normalize_trimmed s : blank s = false → trimmed (normalize s).
Proof.
  intros H. unfold normalize, split_ws. apply join_trimmed.
  - intros [_ Hb]%split_ws_from_nil. congruence.
  - eapply Forall_impl; [by apply split_ws_from_words | apply word_trimmed].
Qed.

Lemma normalize_nil_blank s : normalize s = [] ↔ blank s = true.
Proof.
  split; [| apply normalize_blank].
  intros H. destruct (blank s) eqn:Hb; [done |].
  by apply normalize_trimmed, trimmed_not_nil in Hb.
Qed.

Lemma take_trimmed_not_blank n s :
  trimmed s → blank (take (S n) s) = false.
Proof.
  intros (c & r & d & -> & Hc & _)%trimmed_inv. simpl. by rewrite Hc.
Qed.

Lemma truncate_not_nil n s : s ≠ [] → truncate n s ≠ [].
Proof.
  intros Hs. unfold truncate. destruct (_ <? _)%Z; [|done].
  intros [_ H]%app_eq_nil. discriminate.
Qed.

(** The last piece of [s.split(". ")] holds the last character of [s]
    when that character is not white space. *)
Lemma split_sentences_from_last piece s c :
  last (piece ++ s) = Some c → isspace c = false →
  ∃ p, p ∈ split_sentences_from piece s ∧ blank p = false.
Proof.
  remember (length s) as n eqn:Hn.
  revert piece s Hn. induction (lt_wf n) as [n _ IH].
  intros piece s -> Hl Hc.
  destruct s as [|a [|b s]]; simpl.
  - rewrite app_nil_r in Hl. exists piece. split; [by left |].
    apply blank_false_elem. exists c. by split; [apply last_Some_elem_of |].
  - exists (piece ++ [a]). split; [by left |].
    apply blank_false_elem. exists c. by split; [apply last_Some_elem_of |].
  - destruct ((a =? dot) && (b =? space))%N eqn:Hcut.
    + apply andb_true_iff in Hcut as [->%N.eqb_eq ->%N.eqb_eq].
      rewrite last_app_cons, last_cons_cons in Hl.
      destruct s as [|x s].
      * injection Hl as <-. by vm_compute in Hc.
      * rewrite last_cons_cons in Hl.
        destruct (IH (length (x :: s)) ltac:(simpl; lia) [] (x :: s) eq_refl)
          as (p & Hp & Hb); [done | done |].
        exists p. split; [by right | done].
    + destruct (IH (length (b :: s)) ltac:(simpl; lia) (piece ++ [a]) (b :: s) eq_refl)
        as (p & Hp & Hb); [by rewrite <-app_assoc | done |].
      by exists p.
Qed.

(** ** The loop of the chunker *)

Section Chunker.
Context (max_chars : Z) (sentences : list pystr).

(** The chunk made of the sentences gathered in [current]. *)
Lemma flush_chunk chunks current :
  chunk_inv max_chars sentences (chunks, current) → current ≠ [] →
  trimmed (strip (join dot_space current))
  ∧ chunk_within max_chars sentences (strip (join dot_space current)).
Proof.
  intros (_ & _ & Hcur & Hsize) Hne. simpl in *.
  pose proof (join_trimmed dot_space current Hne Hcur) as Htr.
  rewrite (trimmed_strip _ Htr). split; [done |].
  destruct Hsize as [-> | [Hle | (s & Hs & ->)]]; [done | by left |].
  simpl. destruct (Z_le_gt_dec (len (strip s)) max_chars) as [Hle | Hgt].
  - by left.
  - right. split; [lia |]. by exists s.
Qed.

Lemma chunk_step_inv st sentence :
  sentence ∈ sentences →
  chunk_inv max_chars sentences st →
  chunk_inv max_chars sentences (chunk_step max_chars st sentence).
Proof.
  intros Hin Hinv. destruct st as [chunks current]. unfold chunk_step.
  rewrite strip_falsy. destruct (blank sentence) eqn:Hb; [done |].
  pose proof (strip_trimmed _ Hb) as Hs.
  destruct (_ <=? _)%Z eqn:Hfit.
  - destruct Hinv as (Hc1 & Hc2 & Hcur & _).
    assert (Forall trimmed (current ++ [strip sentence])) as Hcur'
      by (apply Forall_app; split; [done | by constructor]).
    split_and!; simpl; [done | done | done |].
    right; left.
    rewrite trimmed_strip in Hfit
      by (apply join_trimmed; [by destruct current | done]).
    by apply Z.leb_le.
  - destruct current as [|x current].
    + destruct Hinv as (Hc1 & Hc2 & _ & _).
      split_and!; simpl; [done | done | by constructor |].
      right; right. by exists sentence.
    + destruct (flush_chunk chunks (x :: current) Hinv ltac:(done))
        as [Htr Hwithin].
      destruct Hinv as (Hc1 & Hc2 & _ & _).
      split_and!; simpl.
      * apply Forall_app. split; [done | by constructor].
      * apply Forall_app. split; [done | by constructor].
      * by constructor.
      * right; right. by exists sentence.
Qed.

Lemma chunk_loop_inv pieces st :
  (∀ s, s ∈ pieces → s ∈ sentences) →
  chunk_inv max_chars sentences st →
  chunk_inv max_chars sentences (foldl (chunk_step max_chars) st pieces).
Proof.
  revert st. induction pieces as [|s pieces IH]; intros st Hsub Hinv; [done |].
  simpl. apply IH.
  - intros s' Hs'. apply Hsub. by right.
  - apply chunk_step_inv; [apply Hsub; by left | done].
Qed.

Lemma chunk_step_current st sentence :
  st.2 ≠ [] ∨ blank sentence = false →
  (chunk_step max_chars st sentence).2 ≠ [].
Proof.
  destruct st as [chunks current]. unfold chunk_step.
  rewrite strip_falsy. simpl. intros H.
  destruct (blank sentence); [by destruct H |].
  destruct (_ <=? _)%Z; simpl; [by destruct current | done].
Qed.

Lemma chunk_loop_current pieces st :
  st.2 ≠ [] ∨ (∃ s, s ∈ pieces ∧ blank s = false) →
  (foldl (chunk_step max_chars) st pieces).2 ≠ [].
Proof.
  revert st. induction pieces as [|s pieces IH]; intros st H; simpl.
  - destruct H as [H | (s & Hs & _)]; [done | inversion Hs].
  - apply IH. destruct H as [H | (s' & Hs' & Hb)].
    + left. apply chunk_step_current. by left.
    + apply elem_of_cons in Hs' as [-> | Hs'].
      * left. apply chunk_step_current. by right.
      * right. eauto.
Qed.

End Chunker.

Lemma chunk_text_short text max_chars :
  (len (normalize text) ≤ max_chars)%Z →
  _chunk_text text max_chars = [normalize text].
Proof.
  intros H. unfold _chunk_text.
  by rewrite (proj2 (Z.leb_le _ _) H).
Qed.

(** What [_chunk_text] returns for a text too long for one chunk. *)
Lemma chunk_text_long text max_chars :
  (max_chars < len (normalize text))%Z →
  ∃ chunks current,
    foldl (chunk_step max_chars) ([], [])
      (split_sentences (normalize text)) = (chunks, current)
    ∧ _chunk_text text max_chars =
        match current with
        | [] => chunks
        | _ => chunks ++ [strip (join dot_space current)]
        end.
Proof.
  intros H. unfold _chunk_text.
  rewrite (proj2 (Z.leb_gt _ _) H).
  destruct (foldl _ _ _) as [chunks current]. by exists chunks, current.
Qed.

Lemma chunk_text_within text max_chars :
  Forall (chunk_within max_chars (split_sentences (normalize text)))
    (_chunk_text text max_chars).
Proof.
  destruct (Z_le_gt_dec (len (normalize text)) max_chars) as [Hle | Hgt].
  - rewrite chunk_text_short by done. constructor; [by left | done].
  - destruct (chunk_text_long text max_chars ltac:(lia))
      as (chunks & current & Hloop & ->).
    assert (chunk_inv max_chars (split_sentences (normalize text))
              (chunks, current)) as Hinv.
    { rewrite <-Hloop. apply chunk_loop_inv; [done |].
      by split_and!; [constructor | constructor | constructor | left]. }
    destruct current as [|x current]; [apply Hinv |].
    apply Forall_app. split; [apply Hinv |].
    constructor; [| done]. by eapply flush_chunk.
Qed.

Lemma chunk_text_trimmed text max_chars :
  blank text = false → Forall trimmed (_chunk_text text max_chars).
Proof.
  intros Hb.
  destruct (Z_le_gt_dec (len (normalize text)) max_chars) as [Hle | Hgt].
  - rewrite chunk_text_short by done.
    constructor; [by apply normalize_trimmed | done].
  - destruct (chunk_text_long text max_chars ltac:(lia))
      as (chunks & current & Hloop & ->).
    assert (chunk_inv max_chars (split_sentences (normalize text))
              (chunks, current)) as Hinv.
    { rewrite <-Hloop. apply chunk_loop_inv; [done |].
      by split_and!; [constructor | constructor | constructor | left]. }
    destruct current as [|x current]; [apply Hinv |].
    apply Forall_app. split; [apply Hinv |].
    constructor; [| done]. by eapply flush_chunk.
Qed.

Lemma chunk_text_not_nil text max_chars :
  blank text = false → _chunk_text text max_chars ≠ [].
Proof.
  intros Hb.
  destruct (Z_le_gt_dec (len (normalize text)) max_chars) as [Hle | Hgt].
  - by rewrite chunk_text_short.
  - destruct (chunk_text_long text max_chars ltac:(lia))
      as (chunks & current & Hloop & ->).
    assert (current ≠ []) as Hne.
    { change current with (chunks, current).2. rewrite <-Hloop.
      apply chunk_loop_current. right.
      destruct (trimmed_inv _ (normalize_trimmed _ Hb))
        as (c & r & d & _ & _ & Hl & Hd).
      by apply (split_sentences_from_last [] _ d). }
    destruct current; [done |]. by intros [_ ?]%app_eq_nil.
Qed.

(** C4 (amended): every chunk [_chunk_text] returns is non-empty provided
    the normalized text is non-empty; every chunk has at most
    [max_chars] characters, except a chunk that is a single sentence of
    more than [max_chars] characters; and when the normalized text has at
    most [max_chars] characters the result is the one-element list of
    the normalized text. *)
Theorem chunk_text_chunks text max_chars :
  (normalize text ≠ [] →
   Forall (λ chunk, chunk ≠ []) (_chunk_text text max_chars))
  ∧ Forall (chunk_within max_chars (split_sentences (normalize text)))
      (_chunk_text text max_chars)
  ∧ ((len (normalize text) ≤ max_chars)%Z →
     _chunk_text text max_chars = [normalize text]).
Proof.
  split_and!.
  - intros Hne. eapply Forall_impl.
    + apply chunk_text_trimmed. destruct (blank text) eqn:Hb; [| done].
      by apply normalize_blank in Hb.
    + intros chunk. apply trimmed_not_nil.
  - apply chunk_text_within.
  - apply chunk_text_short.
Qed.

(** ** The monad *)

Lemma bind_ok {A B} (m : M A) (f : A → M B) st a st' :
  m st = (Ok a, st') → (m ≫= f) st = f a st'.
Proof. intros H. unfold mbind, M_mbind, M_bind. by rewrite H. Qed.

Lemma bind_raise {A B} (m : M A) (f : A → M B) st e st' :
  m st = (Raise e, st') → (m ≫= f) st = (Raise e, st').
Proof. intros H. unfold mbind, M_mbind, M_bind. by rewrite H. Qed.

Lemma try_except_ok {A} (body : M A) handler st a st' :
  body st = (Ok a, st') → try_except body handler st = (Ok a, st').
Proof. intros H. unfold try_except. by rewrite H. Qed.

Lemma try_except_raise {A} (body : M A) handler st e st' :
  body st = (Raise e, st') → try_except body handler st = handler e st'.
Proof. intros H. unfold try_except. by rewrite H. Qed.

Lemma logger_add lvl msg st : logger lvl msg st = (Ok tt, add_log st (lvl, msg)).
Proof. done. Qed.

(** ** Summarizer *)

Lemma get_summarizer_loaded W st engine :
  _summarizer st = Some engine →
  get_summarizer W st = (Ok (Some engine), st).
Proof.
  intros H. unfold get_summarizer, read_summarizer, mbind, M_mbind, M_bind, mret, M_mret, M_ret.
  rewrite H. by rewrite H.
Qed.

Lemma get_summarizer_in_use W st :
  ∃ st', get_summarizer W st = (Ok (engine_in_use W st), st').
Proof.
  unfold engine_in_use. destruct (_summarizer st) as [engine|] eqn:Hs.
  - exists st. by apply get_summarizer_loaded.
  - unfold get_summarizer, load_models_with_caching, read_summarizer,
      try_except, lift, mbind, M_mbind, M_bind, mret, M_mret, M_ret.
    rewrite Hs. simpl.
    destruct (pipeline W) as [model | e]; simpl; rewrite Hs; simpl;
      rewrite ?Hs; eauto.
Qed.

Lemma summarize_chunk_ok engine partial chunk st :
  ∃ st', summarize_chunk engine partial chunk st
         = (Ok (partial ++ [partial_summary engine chunk]), st').
Proof.
  unfold summarize_chunk, partial_summary, try_except, lift, mbind, M_mbind,
    M_bind, mret, M_mret, M_ret.
  destruct (engine chunk 120%Z 40%Z); simpl; eauto.
Qed.

Lemma summarize_chunks_ok engine chunks partial st :
  ∃ st', for_each chunks partial (summarize_chunk engine) st
         = (Ok (partial ++ (partial_summary engine <$> chunks)), st').
Proof.
  revert partial st. induction chunks as [|chunk chunks IH]; intros partial st.
  - exists st. simpl. by rewrite app_nil_r.
  - destruct (summarize_chunk_ok engine partial chunk st) as [st1 H1].
    destruct (IH (partial ++ [partial_summary engine chunk]) st1) as [st2 H2].
    exists st2. simpl. rewrite (bind_ok _ _ _ _ _ H1), H2.
    by rewrite <-app_assoc.
Qed.

Lemma partial_summary_not_blank engine chunk :
  never_blank engine → trimmed chunk →
  blank (partial_summary engine chunk) = false.
Proof.
  intros Hengine Hchunk. unfold partial_summary.
  destruct (engine chunk 120%Z 40%Z) as [summary | e] eqn:Hcall.
  - rewrite blank_strip. by eapply Hengine.
  - by apply (take_trimmed_not_blank 299).
Qed.

Lemma join_not_blank sep parts :
  parts ≠ [] → Forall (λ p, blank p = false) parts →
  blank (join sep parts) = false.
Proof.
  intros Hne Hall. destruct parts as [|p [|q rest]]; [done | |].
  - simpl. by inversion Hall.
  - change (join sep (p :: q :: rest)) with (p ++ sep ++ join sep (q :: rest)).
    rewrite blank_app. inversion Hall as [|? ? Hp _]. by rewrite Hp.
Qed.

(** The four ways [summarize_text] returns: empty input, short input,
    no engine, and summaries from the engine. *)
Lemma summarize_text_cases W text st :
  (text = [] ∧ summarize_text W text st = (Ok [], st))
  ∨ (text ≠ [] ∧ (len (normalize text) ≤ 400)%Z
     ∧ summarize_text W text st = (Ok (normalize text), st))
  ∨ ((400 < len (normalize text))%Z ∧ engine_in_use W st = None
     ∧ ∃ st', summarize_text W text st
              = (Ok (truncate 800 (normalize text)), st'))
  ∨ ((400 < len (normalize text))%Z
     ∧ ∃ engine st', engine_in_use W st = Some engine
       ∧ let combined :=
           normalize (join [space]
             (partial_summary engine <$> _chunk_text (normalize text) 700)) in
         summarize_text W text st =
           (Ok (if (len combined <=? 500)%Z then combined
                else match engine combined 150%Z 50%Z with
                     | Ok final_summary => strip final_summary
                     | Raise _ => truncate 800 combined
                     end), st')).
Proof.
  unfold summarize_text. destruct text as [|c text]; [by left |].
  right. change (falsy (c :: text)) with false. cbv iota.
  destruct (Z.leb_spec (len (normalize (c :: text))) 400) as [Hle | Hgt].
  { left. by split_and!. }
  right. destruct (get_summarizer_in_use W st) as [st1 Hget].
  rewrite (bind_ok _ _ _ _ _ Hget).
  destruct (engine_in_use W st) as [engine|] eqn:Huse.
  - right. split; [lia |].
    destruct (summarize_chunks_ok engine
                (_chunk_text (normalize (c :: text)) 700) [] st1) as [st2 H2].
    simpl in H2.
    unfold try_except at 1. rewrite (bind_ok _ _ _ _ _ H2).
    destruct (_ <=? 500)%Z eqn:Hshort.
    + exists engine, st2. split; [done |]. simpl. by rewrite Hshort.
    + unfold try_except, lift, mbind, M_mbind, M_bind, mret, M_mret, M_ret.
      destruct (engine _ 150%Z 50%Z) as [final | e] eqn:Hfinal.
      * exists engine, st2. split; [done |]. simpl.
        by rewrite Hshort, Hfinal.
      * eexists engine, _. split; [done |]. simpl.
        rewrite Hshort, Hfinal. reflexivity.
  - left. split; [lia |]. split; [done |].
    eexists. reflexivity.
Qed.

Lemma summarize_text_ok W text st :
  ∃ summary st', summarize_text W text st = (Ok summary, st').
Proof.
  destruct (summarize_text_cases W text st)
    as [[_ Heq] | [(_ & _ & Heq) | [(_ & _ & st' & Heq)
       | (_ & engine & st' & _ & Heq)]]]; rewrite Heq; eauto.
Qed.

Lemma summarize_text_short_run W text st :
  (len (normalize text) ≤ 400)%Z →
  summarize_text W text st = (Ok (normalize text), st).
Proof.
  intros Hle.
  destruct (summarize_text_cases W text st)
    as [[-> Heq] | [(Hne & _ & Heq) | [(Hgt & _) | (Hgt & _)]]];
    [done | done | lia | lia].
Qed.

(** C2 (amended): for every input string and every state of the engine
    handle, whether or not an engine can be loaded, [summarize_text]
    returns a string and does not raise.  The string is non-empty
    whenever the input has a character that is not white space and every
    summary the engine in use returns has such a character. *)
Theorem summarize_text_returns W text st :
  ∃ summary st',
    summarize_text W text st = (Ok summary, st')
    ∧ (blank text = false →
       (∀ engine, engine_in_use W st = Some engine → never_blank engine) →
       summary ≠ []).
Proof.
  destruct (summarize_text_cases W text st)
    as [[-> Heq] | [(Hne & Hle & Heq) | [(Hgt & Huse & st' & Heq)
       | (Hgt & engine & st' & Huse & Heq)]]];
    rewrite Heq; eexists _, _; (split; [reflexivity |]); intros Hb Hengine.
  - discriminate.
  - by apply trimmed_not_nil, normalize_trimmed.
  - by apply truncate_not_nil, trimmed_not_nil, normalize_trimmed.
  - specialize (Hengine engine Huse).
    pose proof (normalize_trimmed _ Hb) as Htext.
    apply trimmed_not_blank in Htext.
    assert (trimmed (normalize (join [space]
              (partial_summary engine <$> _chunk_text (normalize text) 700))))
      as Hcombined.
    { apply normalize_trimmed, join_not_blank.
      - intros Hnil%fmap_nil_inv. by apply chunk_text_not_nil in Hnil.
      - apply Forall_fmap.
        eapply Forall_impl; [by apply chunk_text_trimmed |].
        intros chunk Hchunk. by apply partial_summary_not_blank. }
    destruct (_ <=? 500)%Z; [by apply trimmed_not_nil |].
    destruct (engine _ 150%Z 50%Z) as [final | e] eqn:Hfinal.
    + apply trimmed_not_nil, strip_trimmed. by eapply Hengine.
    + by apply truncate_not_nil, trimmed_not_nil.
Qed.

(** C3: for every input whose white-space-normalized form has at most
    400 characters, [summarize_text] returns that normalized form,
    whatever the world and the state of the engine handle. *)
Theorem summarize_text_short W text st :
  (len (normalize text) ≤ 400)%Z →
  fst (summarize_text W text st) = Ok (normalize text).
Proof. intros Hle. by rewrite summarize_text_short_run. Qed.

(** C10: for every input whose normalized form has at most 400
    characters (the empty string included), [summarize_text] leaves the
    whole state as it was, so the engine handle is not set and the
    loader is not run, and its result is the same for every world and
    every state: the handle is not consulted. *)
Theorem summarize_text_short_keeps_engine W text st :
  (len (normalize text) ≤ 400)%Z →
  snd (summarize_text W text st) = st
  ∧ ∀ W' st',
      fst (summarize_text W' text st') = fst (summarize_text W text st).
Proof.
  intros Hle. split; [by rewrite summarize_text_short_run |].
  intros W' st'. by rewrite !summarize_text_short_run.
Qed.

(** ** Fetching and extraction *)

Lemma fetch_html_ok W url st resp :
  requests_get W url = Ok resp → status_code resp = 200%Z →
  fetch_html W url st = (Ok (Some (text resp)), st).
Proof.
  intros Hget Hstatus.
  unfold fetch_html, try_except, lift, mbind, M_mbind, M_bind.
  by rewrite Hget, Hstatus.
Qed.

Lemma fetch_html_non_200 W url st resp :
  requests_get W url = Ok resp → status_code resp ≠ 200%Z →
  fetch_html W url st
  = (Ok None, add_log st (WARNING, Non200Status (status_code resp) url)).
Proof.
  intros Hget Hstatus%Z.eqb_neq.
  unfold fetch_html, try_except, lift, mbind, M_mbind, M_bind.
  by rewrite Hget, Hstatus.
Qed.

Lemma fetch_html_error W url st e :
  requests_get W url = Raise e →
  fetch_html W url st = (Ok None, add_log st (ERROR, RequestError url e)).
Proof.
  intros Hget.
  unfold fetch_html, try_except, lift, mbind, M_mbind, M_bind.
  by rewrite Hget.
Qed.

(** C8: [fetch_html] hands back the document body exactly when the
    request returns with status 200; for any other status and for any
    exception of the request it returns [None] and logs the cause; it
    never raises. *)
Theorem fetch_html_succeeds_iff_200 W url st :
  (∀ document,
     fst (fetch_html W url st) = Ok (Some document)
     ↔ ∃ resp, requests_get W url = Ok resp
               ∧ status_code resp = 200%Z ∧ text resp = document)
  ∧ (∀ resp,
       requests_get W url = Ok resp → status_code resp ≠ 200%Z →
       fetch_html W url st
       = (Ok None, add_log st (WARNING, Non200Status (status_code resp) url)))
  ∧ (∀ e,
       requests_get W url = Raise e →
       fetch_html W url st = (Ok None, add_log st (ERROR, RequestError url e)))
  ∧ (∀ e, fst (fetch_html W url st) ≠ Raise e).
Proof.
  split_and!.
  - intros document. split.
    + destruct (requests_get W url) as [resp | e] eqn:Hget.
      * destruct (decide (status_code resp = 200%Z)) as [Hs | Hs].
        -- rewrite (fetch_html_ok _ _ _ _ Hget Hs). intros [= <-]. eauto.
        -- by rewrite (fetch_html_non_200 _ _ _ _ Hget Hs).
      * by rewrite (fetch_html_error _ _ _ _ Hget).
    + intros (resp & Hget & Hs & <-). by rewrite (fetch_html_ok _ _ _ _ Hget Hs).
  - intros resp. apply fetch_html_non_200.
  - intros e. apply fetch_html_error.
  - intros e. destruct (requests_get W url) as [resp | e'] eqn:Hget.
    + destruct (decide (status_code resp = 200%Z)) as [Hs | Hs].
      * by rewrite (fetch_html_ok _ _ _ _ Hget Hs).
      * by rewrite (fetch_html_non_200 _ _ _ _ Hget Hs).
    + by rewrite (fetch_html_error _ _ _ _ Hget).
Qed.

Lemma process_article_short_body W src url st resp soup :
  requests_get W url = Ok resp → status_code resp = 200%Z →
  text resp ≠ [] →
  BeautifulSoup W (text resp) = Ok soup →
  (len (body_text W src soup) < 50)%Z →
  process_article W src url st
  = (Ok None, add_log st (WARNING, NotEnoughText src url)).
Proof.
  intros Hget Hstatus Hdoc Hsoup Hshort.
  unfold process_article.
  rewrite (bind_ok _ _ _ _ _ (fetch_html_ok W url st resp Hget Hstatus)).
  rewrite (proj2 (falsy_false _) Hdoc).
  unfold lift at 1. rewrite Hsoup.
  unfold mbind at 1, M_mbind at 1, M_bind at 1.
  rewrite (proj2 (Z.ltb_lt _ _) Hshort), orb_true_r.
  reflexivity.
Qed.

(** An empty page is no document to the extractors: they return [None]
    before any text is extracted, and log nothing. *)
Lemma process_article_empty_document W src url st resp :
  requests_get W url = Ok resp → status_code resp = 200%Z →
  text resp = [] →
  process_article W src url st = (Ok None, st).
Proof.
  intros Hget Hstatus Hdoc. unfold process_article.
  rewrite (bind_ok _ _ _ _ _ (fetch_html_ok W url st resp Hget Hstatus)).
  by rewrite Hdoc.
Qed.

(** A record is only built from a body of at least 50 characters. *)
Lemma process_article_record_body W src url st record st' :
  process_article W src url st = (Ok (Some record), st') →
  ∃ resp soup,
    requests_get W url = Ok resp ∧ BeautifulSoup W (text resp) = Ok soup
    ∧ (50 ≤ len (body_text W src soup))%Z
    ∧ record !! "url" = Some (PStr url).
Proof.
  unfold process_article. intros Hrun.
  destruct (requests_get W url) as [resp | e] eqn:Hget.
  2: { by rewrite (bind_ok _ _ _ _ _ (fetch_html_error W url st e Hget)) in Hrun. }
  destruct (decide (status_code resp = 200%Z)) as [Hs | Hs].
  2: { by rewrite (bind_ok _ _ _ _ _ (fetch_html_non_200 W url st resp Hget Hs)) in Hrun. }
  rewrite (bind_ok _ _ _ _ _ (fetch_html_ok W url st resp Hget Hs)) in Hrun.
  destruct (falsy (text resp)); [done |].
  unfold lift at 1, mbind at 1, M_mbind at 1, M_bind at 1 in Hrun.
  destruct (BeautifulSoup W (text resp)) as [soup | e] eqn:Hsoup; [| done].
  exists resp, soup. split; [done |]. split; [done |].
  destruct (falsy _ || _) eqn:Hshort; [done |].
  apply orb_false_iff in Hshort as [_ Hlen%Z.ltb_ge].
  split; [done |].
  destruct (summarize_text_ok W (body_text W src soup) st)
    as (summary & st1 & Hsum).
  rewrite (bind_ok _ _ _ _ _ Hsum) in Hrun. injection Hrun as <- <-.
  unfold headline_dict. by simplify_map_eq.
Qed.

(** C5 (amended): for each of the five sources, when the document was
    fetched, is not empty and was parsed, and the body text extracted
    from it has fewer than 50 characters (none at all included), the
    extraction returns [None] and logs that there is not enough text;
    when the fetched document is empty, the extraction returns [None]
    and logs nothing; and whenever an extraction returns a record, the
    body text it was built from has at least 50 characters. *)
Theorem process_article_rejects_short_body W src url st :
  (∀ resp soup,
     requests_get W url = Ok resp → status_code resp = 200%Z →
     text resp ≠ [] →
     BeautifulSoup W (text resp) = Ok soup →
     (len (body_text W src soup) < 50)%Z →
     process_article W src url st
     = (Ok None, add_log st (WARNING, NotEnoughText src url)))
  ∧ (∀ resp,
       requests_get W url = Ok resp → status_code resp = 200%Z →
       text resp = [] →
       process_article W src url st = (Ok None, st))
  ∧ (∀ record st',
       process_article W src url st = (Ok (Some record), st') →
       ∃ resp soup,
         requests_get W url = Ok resp
         ∧ BeautifulSoup W (text resp) = Ok soup
         ∧ (50 ≤ len (body_text W src soup))%Z).
Proof.
  split_and!.
  - intros resp soup. apply process_article_short_body.
  - intros resp. apply process_article_empty_document.
  - intros record st' Hrun.
    destruct (process_article_record_body _ _ _ _ _ _ Hrun)
      as (resp & soup & Hget & Hsoup & Hlong & _).
    by exists resp, soup.
Qed.

(** ** Database manager *)

Lemma save_headline_stores st table d url :
  headlinesData st = Some table → d !! "url" = Some (PStr url) →
  save_headline d st
  = (Ok tt,
     {| log := log st;
        _summarizer := _summarizer st;
        headlinesData :=
          Some (insert_or_replace (clock st) (PStr url)
                  (dict_get_or d "source" (PStr (py "unknown")))
                  (dict_get d "picture") (dict_get d "heading")
                  (dict_get d "blog") table);
        clock := clock st |}).
Proof.
  intros Htable Hurl. unfold save_headline.
  rewrite bool_decide_eq_false_2
    by (intros ->; by rewrite lookup_empty in Hurl).
  rewrite bool_decide_eq_false_2 by (by rewrite Hurl).
  unfold try_except_class, try_except, execute_insert_or_replace, read_table,
    read_clock, write_table, mbind, M_mbind, M_bind. simpl.
  rewrite Htable. unfold dict_get at 1. by rewrite Hurl.
Qed.

Lemma filter_url_no_conflict id url l :
  List.filter (has_url url)
    (List.filter (λ r, negb (conflicts id (PStr url) r)) l) = [].
Proof.
  induction l as [|r l IH]; [done |]. simpl.
  destruct (conflicts id (PStr url) r) eqn:Hc; simpl; [exact IH |].
  unfold conflicts in Hc. apply orb_false_iff in Hc as [_ Hu].
  unfold has_url at 1. by rewrite Hu.
Qed.

Lemma insert_or_replace_one_row now url source picture heading blog t :
  List.filter (has_url url)
    (rows (insert_or_replace now (PStr url) source picture heading blog t))
  = [{| row_id := next_id t; row_source := source; row_url := PStr url;
        row_picture := picture; row_heading := heading; row_blog := blog;
        row_timestamp := now |}].
Proof.
  unfold insert_or_replace. simpl.
  rewrite List.filter_app, filter_url_no_conflict. simpl.
  unfold has_url. simpl. by rewrite bool_decide_eq_true_2.
Qed.

(** [_init_db] puts the table in place and keeps a table that is
    there. *)
Lemma init_db_table st :
  ∃ table,
    headlinesData (snd (_init_db st)) = Some table
    ∧ (∀ t, headlinesData st = Some t → table = t).
Proof.
  unfold _init_db, create_table_if_not_exists, read_table, write_table,
    logger, mbind, M_mbind, M_bind, mret, M_mret, M_ret. simpl.
  destruct (headlinesData st) as [t|] eqn:Ht; simpl.
  - exists t. split; [done |]. by intros ? [= <-].
  - eexists. split; [reflexivity | done].
Qed.

(** C6: with the table in place, saving a record and then a record
    with the same url leaves exactly one row for that url, and that row
    holds the fields of the record saved last and the time of that
    save. *)
Theorem save_headline_twice_one_row st table first second url now :
  headlinesData st = Some table →
  first !! "url" = Some (PStr url) →
  second !! "url" = Some (PStr url) →
  let st1 := snd (save_headline first st) in
  let st2 := snd (save_headline second (set_clock now st1)) in
  fst (save_headline first st) = Ok tt
  ∧ fst (save_headline second (set_clock now st1)) = Ok tt
  ∧ ∃ table2 id,
      headlinesData st2 = Some table2
      ∧ List.filter (has_url url) (rows table2) = [row_of id second now].
Proof.
  intros Htable Hfirst Hsecond. cbv zeta.
  rewrite (save_headline_stores st table first url Htable Hfirst). simpl.
  erewrite (save_headline_stores _ _ second url); [| done | done]. simpl.
  split; [done |]. split; [done |].
  eexists _, _. split; [done |].
  rewrite insert_or_replace_one_row. unfold row_of, dict_get, dict_get_or.
  by rewrite Hsecond.
Qed.

(** ** The routes *)

(** C9: when the [limit] parameter is absent, empty or not a numeral
    that [int] accepts, [get_news] queries with the limit 50. *)
Theorem get_news_default_limit W args st :
  args !! "limit" = None ∨ args !! "limit" = Some []
  ∨ (∃ p, args !! "limit" = Some p ∧ py_int W p = None) →
  get_news_limit W args st = (Ok 50%Z, st)
  ∧ get_news W args st
    = (headlines ← get_all_headlines 50;
       mret {| http_status := 200; body := JsonHeadlines headlines |}) st.
Proof.
  intros Hlimit.
  assert (get_news_limit W args st = (Ok 50%Z, st)) as Hdefault.
  { unfold get_news_limit, try_except_class, try_except.
    destruct Hlimit as [-> | [-> | (p & -> & Hint)]]; [done | done |].
    destruct p; [done |]. simpl. by rewrite Hint. }
  split; [done |].
  unfold get_news. by rewrite (bind_ok _ _ _ _ _ Hdefault).
Qed.

Lemma not_known_selector source :
  source ∉ known_selectors →
  bool_decide (source = py "geo") = false
  ∧ bool_decide (source = py "bbc") = false
  ∧ bool_decide (source = py "ary") = false
  ∧ bool_decide (source = py "samaa") = false
  ∧ bool_decide (source = py "dawn") = false
  ∧ bool_decide (source = py "all") = false.
Proof.
  intros Hnot. unfold known_selectors in Hnot.
  rewrite !not_elem_of_cons in Hnot.
  destruct Hnot as (? & ? & ? & ? & ? & ? & _).
  by rewrite !bool_decide_eq_false_2.
Qed.

(** C7: when the query is missing or blank, or the lower-cased source
    selector is none of geo, bbc, ary, samaa, dawn and all, [search_news]
    answers 400 with the state untouched, and does so whatever the
    scraper's searches are: none of them is run. *)
Theorem search_news_rejects_bad_request W scraper args st :
  strip (default [] (args !! "query")) = []
  ∨ str_lower W (default (py "all") (args !! "source")) ∉ known_selectors →
  ∃ message,
    search_news W scraper args st
    = (Ok {| http_status := 400; body := JsonError message |}, st)
    ∧ ∀ scraper', search_news W scraper' args st = search_news W scraper args st.
Proof.
  intros Hbad. unfold search_news.
  destruct (strip (default [] (args !! "query"))) as [|c query] eqn:Hquery.
  { eexists. split; reflexivity. }
  destruct Hbad as [? | Hunknown]; [done |].
  apply not_known_selector in Hunknown as (-> & -> & -> & -> & -> & ->).
  eexists. split; reflexivity.
Qed.

(** ** Search over all sources *)

Lemma search_all_sources_unfold scraper query st :
  search_all_sources scraper query st =
  (found1 ← search_geo_news scraper query;
   found2 ← (logger INFO (SearchingSource BBC);;
             search_bbc_news scraper query);
   found3 ← (logger INFO (SearchingSource ARY);;
             search_ary_news scraper query);
   found4 ← (logger INFO (SearchingSource Samaa);;
             search_samaa_news scraper query);
   found5 ← (logger INFO (SearchingSource Dawn);;
             search_dawn_news scraper query);
   let all_results := found1 ++ found2 ++ found3 ++ found4 ++ found5 in
   logger INFO (TotalSearchResults (length all_results));;
   mret all_results)
    (add_log (add_log st (INFO, SearchingAllSources query))
       (INFO, SearchingSource Geo)).
Proof.
  unfold search_all_sources, logger, mbind, M_mbind, M_bind, mret, M_mret,
    M_ret.
  simpl.
  destruct (search_geo_news scraper query _) as [[found1 | e] st1]; [| done].
  destruct (search_bbc_news scraper query _) as [[found2 | e] st2]; [| done].
  destruct (search_ary_news scraper query _) as [[found3 | e] st3]; [| done].
  destruct (search_samaa_news scraper query _) as [[found4 | e] st4]; [| done].
  destruct (search_dawn_news scraper query _) as [[found5 | e] st5]; [| done].
  by rewrite <-!app_assoc.
Qed.

Ltac gathered H :=
  repeat match type of H with
  | gathers _ _ (_ :: _) _ _ _ =>
      let found := fresh "found" in
      let st := fresh "st" in
      let more := fresh "more" in
      let Hrun := fresh "Hrun" in
      inversion H as [| ? ? ? found st more ? Hrun H']; clear H; subst;
      rename H' into H; simpl in Hrun
  | gathers _ _ [] _ _ _ => inversion H; clear H; subst
  end.

Lemma search_all_sources_raises scraper query st before src rest found st1 e
    st2 :
  source_order = before ++ src :: rest →
  gathers scraper query before
    (add_log st (INFO, SearchingAllSources query)) found st1 →
  search_source scraper src query
    (add_log st1 (INFO, SearchingSource src)) = (Raise e, st2) →
  search_all_sources scraper query st = (Raise e, st2).
Proof.
  intros Horder Hdone Hraise. rewrite search_all_sources_unfold.
  unfold source_order in Horder.
  unfold logger, mbind, M_mbind, M_bind, mret, M_mret, M_ret.
  destruct before as [|d1 [|d2 [|d3 [|d4 [|d5 before]]]]];
    simplify_eq/=; gathered Hdone;
    repeat match goal with H : _ = (_, _) |- _ => rewrite H; clear H end;
    try done.
  by destruct before.
Qed.

Lemma search_all_sources_returns scraper query st found st1 :
  gathers scraper query source_order
    (add_log st (INFO, SearchingAllSources query)) found st1 →
  search_all_sources scraper query st
  = (Ok found, add_log st1 (INFO, TotalSearchResults (length found))).
Proof.
  intros Hall. rewrite search_all_sources_unfold.
  unfold source_order in Hall.
  unfold logger, mbind, M_mbind, M_bind, mret, M_mret, M_ret.
  gathered Hall.
  repeat match goal with H : _ = (_, _) |- _ => rewrite H; clear H end.
  by rewrite !app_nil_r.
Qed.

Lemma search_news_all_raises W scraper args st query e st2 :
  strip (default [] (args !! "query")) = query → query ≠ [] →
  str_lower W (default (py "all") (args !! "source")) = py "all" →
  search_all_sources scraper query st = (Raise e, st2) →
  search_news W scraper args st
  = (Ok {| http_status := 500; body := JsonError (exn_msg e) |},
     add_log st2 (ERROR, SearchEndpointError e)).
Proof.
  intros Hquery Hne Hsource Hraise. unfold search_news.
  rewrite Hquery, Hsource, (proj2 (falsy_false _) Hne). simpl.
  unfold try_except. by rewrite (bind_raise _ _ _ _ _ Hraise).
Qed.

(** [search_all_sources] has no handler around the five searches.
    When the searches before a source return and that source's search
    raises, the exception leaves [search_all_sources] in the state
    reached at that point: the later sources are not searched and no
    results are returned.  [search_news] catches it, logs it and answers
    500 with its message.  When all five searches return, the result is
    their results in the order geo, bbc, ary, samaa, dawn. *)
Theorem search_all_sources_failure_propagates W scraper query st :
  (∀ before src rest found st1 e st2,
     source_order = before ++ src :: rest →
     gathers scraper query before
       (add_log st (INFO, SearchingAllSources query)) found st1 →
     search_source scraper src query
       (add_log st1 (INFO, SearchingSource src)) = (Raise e, st2) →
     search_all_sources scraper query st = (Raise e, st2)
     ∧ ∀ args,
         strip (default [] (args !! "query")) = query → query ≠ [] →
         str_lower W (default (py "all") (args !! "source")) = py "all" →
         search_news W scraper args st
         = (Ok {| http_status := 500; body := JsonError (exn_msg e) |},
            add_log st2 (ERROR, SearchEndpointError e)))
  ∧ (∀ found st1,
       gathers scraper query source_order
         (add_log st (INFO, SearchingAllSources query)) found st1 →
       search_all_sources scraper query st
       = (Ok found, add_log st1 (INFO, TotalSearchResults (length found)))).
Proof.
  split.
  - intros before src rest found st1 e st2 Horder Hdone Hraise.
    pose proof (search_all_sources_raises _ _ _ _ _ _ _ _ _ _
                  Horder Hdone Hraise) as Hall.
    split; [done |]. intros args Hquery Hne Hsource.
    by eapply search_news_all_raises.
  - apply search_all_sources_returns.
Qed.

(** ** The properties at sample inputs *)

Example split_ws_sample :
  split_ws (py "  a b   cd ") = [py "a"; py "b"; py "cd"].
Proof. reflexivity. Qed.

Example split_sentences_sample :
  split_sentences (py "a. b.. c.") = [py "a"; py "b."; py "c."].
Proof. reflexivity. Qed.

Example strip_sample : strip (py "  a b  ") = py "a b".
Proof. reflexivity. Qed.

Example chunk_text_sample :
  _chunk_text (py "aa. bb. cc. dddddddd. e") 6
  = [py "aa. bb"; py "cc"; py "dddddddd"; py "e"].
Proof. vm_compute. reflexivity. Qed.

Example search_news_upper_case_selector :
  fst (search_news Sample.world Sample.scraper_marking
         (<["query" := Sample.floods]> (<["source" := py "GEO"]> ∅))
         Sample.start)
  = Ok {| http_status := 200;
          body := JsonSearch Sample.floods (py "geo") 0 [] |}.
Proof. vm_compute. reflexivity. Qed.

(** The Geo search finds a story and the BBC search raises:
    [search_all_sources] raises too, the ARY, Samaa and Dawn searches
    are never announced or run, and [search_news] answers 500 and stores
    nothing. *)
Lemma search_all_sources_bbc_failure_aborts :
  fst (search_all_sources Sample.scraper_bbc_fails Sample.floods Sample.start)
  = Raise Sample.markup_rejected
  ∧ log (snd (search_all_sources Sample.scraper_bbc_fails Sample.floods
                Sample.start))
    = [(INFO, SearchingAllSources Sample.floods);
       (INFO, SearchingSource Geo); (INFO, SearchingSource BBC)]
  ∧ fst (search_news Sample.world Sample.scraper_bbc_fails
           (<["query" := Sample.floods]> ∅) Sample.start)
    = Ok {| http_status := 500;
            body := JsonError (exn_msg Sample.markup_rejected) |}
  ∧ headlinesData
      (snd (search_news Sample.world Sample.scraper_bbc_fails
              (<["query" := Sample.floods]> ∅) Sample.start))
    = headlinesData Sample.start.
Proof. split_and!; vm_compute; reflexivity. Qed.

(** C1, at the failing input: a search for floods over all sources,
    with the adapters of the program, when the parser rejects the search
    page of the BBC.  The Geo search, run alone, finds a record; the BBC
    search raises inside [search_all_sources], which raises too, and
    [search_news] answers 500 with the parser's message and stores
    nothing, the record found by the Geo search included. *)
Theorem search_all_sources_loses_found_records :
  fst (search_source (Scraper.scraper Demo.platform_bbc_broken None) Geo
         Sample.floods Sample.start)
  = Ok [Demo.geo_floods_story]
  ∧ fst (search_all_sources (Scraper.scraper Demo.platform_bbc_broken None)
           Sample.floods Sample.start)
    = Raise Sample.markup_rejected
  ∧ fst (search_news Demo.world_bbc_broken
           (Scraper.scraper Demo.platform_bbc_broken None)
           (<["query" := Sample.floods]> ∅) Sample.start)
    = Ok {| http_status := 500;
            body := JsonError (exn_msg Sample.markup_rejected) |}
  ∧ headlinesData
      (snd (search_news Demo.world_bbc_broken
              (Scraper.scraper Demo.platform_bbc_broken None)
              (<["query" := Sample.floods]> ∅) Sample.start))
    = headlinesData Sample.start.
Proof. split_and!; vm_compute; reflexivity. Qed.

(** C5, as stated, fails: a page fetched with status 200 and an empty
    body is a fetched document with no body text at all; the extraction
    returns [None] and nothing is logged. *)
Lemma process_article_empty_page_unlogged :
  fetch_html Demo.world_blank_page (py "https://www.bbc.com/news/1")
    Sample.start
  = (Ok (Some []), Sample.start)
  ∧ process_article Demo.world_blank_page BBC (py "https://www.bbc.com/news/1")
      Sample.start
    = (Ok None, Sample.start)
  ∧ log Sample.start = [].
Proof. split_and!; reflexivity. Qed.

(** C2, as stated, fails: a single space is a non-empty input and its
    summary is the empty string. *)
Lemma summarize_text_space_gives_empty :
  py " " ≠ []
  ∧ summarize_text Sample.world (py " ") Sample.start = (Ok [], Sample.start).
Proof. split; [discriminate | reflexivity]. Qed.

(** With an engine whose summaries are empty, a long text of visible
    sentences, too, is summarized to the empty string. *)
Example summarize_text_silent_engine :
  fst (summarize_text Sample.world Sample.long_text Sample.start_silent)
  = Ok [].
Proof. vm_compute. reflexivity. Qed.

(** C4, as stated, fails: the empty text is cut into one chunk, the
    empty string. *)
Lemma chunk_text_empty_chunk :
  _chunk_text [] 700 = [[]]
  ∧ ¬ Forall (λ chunk, chunk ≠ []) (_chunk_text [] 700).
Proof.
  split; [reflexivity |].
  intros H. by inversion H.
Qed.

Lemma search_all_sources_failure_propagates_witness :
  search_all_sources Sample.scraper_bbc_fails Sample.floods Sample.start
  = (Raise Sample.markup_rejected,
     add_log
       (add_log (add_log Sample.start (INFO, SearchingAllSources Sample.floods))
          (INFO, SearchingSource Geo))
       (INFO, SearchingSource BBC)).
Proof.
  refine (proj1 (proj1 (search_all_sources_failure_propagates Sample.world
                   Sample.scraper_bbc_fails Sample.floods Sample.start)
            [Geo] BBC [ARY; Samaa; Dawn] _ _ _ _ eq_refl _ _)).
  - eapply gathers_cons; [reflexivity | apply gathers_nil].
  - reflexivity.
Defined.

Lemma summarize_text_returns_witness :
  ∃ summary,
    fst (summarize_text Sample.world Sample.long_text Sample.start_loaded)
    = Ok summary
    ∧ summary ≠ [].
Proof.
  destruct (summarize_text_returns Sample.world Sample.long_text
              Sample.start_loaded) as (summary & st' & Hrun & Hshown).
  exists summary. rewrite Hrun. split; [reflexivity |].
  apply Hshown.
  - vm_compute. reflexivity.
  - intros engine [= <-] text max_length min_length summary' [= <-].
    reflexivity.
Defined.

Lemma summarize_text_short_witness :
  fst (summarize_text Sample.world (py "  Hello   world ") Sample.start)
  = Ok (py "Hello world").
Proof.
  apply (summarize_text_short Sample.world (py "  Hello   world ")
           Sample.start).
  vm_compute. discriminate.
Defined.

Lemma summarize_text_short_keeps_engine_witness :
  snd (summarize_text Sample.world (py "  Hello   world ") Sample.start)
  = Sample.start.
Proof.
  apply (summarize_text_short_keeps_engine Sample.world
           (py "  Hello   world ") Sample.start).
  vm_compute. discriminate.
Defined.

Lemma chunk_text_chunks_witness :
  Forall (λ chunk, chunk ≠ []) (_chunk_text Sample.long_text 700)
  ∧ _chunk_text (py " Hello  world ") 700 = [py "Hello world"].
Proof.
  split.
  - apply (chunk_text_chunks Sample.long_text 700).
    vm_compute. discriminate.
  - apply (chunk_text_chunks (py " Hello  world ") 700).
    vm_compute. discriminate.
Defined.

Lemma process_article_rejects_short_body_witness :
  process_article Sample.world BBC (py "https://www.bbc.com/news/1")
    Sample.start
  = (Ok None,
     add_log Sample.start
       (WARNING, NotEnoughText BBC (py "https://www.bbc.com/news/1"))).
Proof.
  apply (proj1 (process_article_rejects_short_body Sample.world BBC
                  (py "https://www.bbc.com/news/1") Sample.start)
           Sample.short_page (py "Too short.")).
  - reflexivity.
  - reflexivity.
  - discriminate.
  - reflexivity.
  - vm_compute. reflexivity.
Defined.

Lemma save_headline_twice_one_row_witness :
  ∃ table2 id,
    headlinesData
      (snd (save_headline (Sample.story "https://www.geo.tv/latest/1" "new")
              (set_clock 2000
                 (snd (save_headline
                         (Sample.story "https://www.geo.tv/latest/1" "old")
                         Sample.start)))))
    = Some table2
    ∧ List.filter (has_url (py "https://www.geo.tv/latest/1")) (rows table2)
      = [row_of id (Sample.story "https://www.geo.tv/latest/1" "new") 2000].
Proof.
  apply (save_headline_twice_one_row Sample.start
           {| rows := []; sequence := 0 |}
           (Sample.story "https://www.geo.tv/latest/1" "old")
           (Sample.story "https://www.geo.tv/latest/1" "new")
           (py "https://www.geo.tv/latest/1") 2000).
  - reflexivity.
  - vm_compute. reflexivity.
  - vm_compute. reflexivity.
Defined.

Lemma search_news_rejects_bad_request_witness :
  ∃ message,
    search_news Sample.world Sample.scraper_marking
      (<["query" := Sample.floods]> (<["source" := py "unknownsource"]> ∅))
      Sample.start
    = (Ok {| http_status := 400; body := JsonError message |}, Sample.start).
Proof.
  destruct (search_news_rejects_bad_request Sample.world
              Sample.scraper_marking
              (<["query" := Sample.floods]>
                 (<["source" := py "unknownsource"]> ∅))
              Sample.start) as (message & Hrun & _).
  - right. vm_compute. intros Hin.
    repeat (apply elem_of_cons in Hin as [Heq | Hin]; [discriminate Heq |]).
    inversion Hin.
  - by exists message.
Defined.

Lemma fetch_html_succeeds_iff_200_witness :
  fetch_html Sample.world_404 (py "https://www.dawn.com/news/1") Sample.start
  = (Ok None,
     add_log Sample.start
       (WARNING, Non200Status 404 (py "https://www.dawn.com/news/1"))).
Proof.
  apply (proj1 (proj2 (fetch_html_succeeds_iff_200 Sample.world_404
                         (py "https://www.dawn.com/news/1") Sample.start))
           {| status_code := 404; text := py "Not Found" |}).
  - reflexivity.
  - discriminate.
Defined.

Lemma get_news_default_limit_witness :
  get_news_limit Sample.world (<["limit" := py "abc"]> ∅) Sample.start
  = (Ok 50%Z, Sample.start).
Proof.
  apply (get_news_default_limit Sample.world (<["limit" := py "abc"]> ∅)
           Sample.start).
  right; right. exists (py "abc"). split; vm_compute; reflexivity.
Defined.

(** * Further properties *)

(** ** White space and joins *)

Lemma split_ws_from_word word w rest :
  Forall (λ c, isspace c = false) w →
  split_ws_from word (w ++ rest) = split_ws_from (word ++ w) rest.
Proof.
  revert word. induction w as [|c w IH]; intros word Hw; simpl.
  - by rewrite app_nil_r.
  - inversion Hw as [|? ? Hc Hw']; subst. rewrite Hc, IH by done.
    by rewrite <-app_assoc.
Qed.

Lemma split_ws_join_words ws :
  Forall is_word ws → split_ws (join [space] ws) = ws.
Proof.
  unfold split_ws. induction ws as [|w [|w2 ws] IH]; intros Hws; [done | |].
  - inversion Hws as [|? ? [Hne Hw] _]; subst. simpl.
    rewrite <-(app_nil_r w) at 1. rewrite split_ws_from_word by done.
    simpl. by destruct w.
  - inversion Hws as [|? ? [Hne Hw] Hrest]; subst.
    change (join [space] (w :: w2 :: ws))
      with (w ++ space :: join [space] (w2 :: ws)).
    rewrite split_ws_from_word by done. rewrite app_nil_l.
    destruct w as [|c w]; [done |].
    change (split_ws_from (c :: w) (space :: join [space] (w2 :: ws)))
      with ((c :: w) :: split_ws_from [] (join [space] (w2 :: ws))).
    by rewrite IH.
Qed.

Lemma normalize_idempotent text : normalize (normalize text) = normalize text.
Proof.
  unfold normalize at 1 3. f_equal. unfold normalize.
  apply split_ws_join_words. by apply split_ws_from_words.
Qed.

Lemma split_ws_from_blank word b :
  blank b = true →
  split_ws_from word b = match word with [] => [] | _ => [word] end.
Proof.
  revert word. induction b as [|c b IH]; intros word Hb; [done |].
  simpl in *. apply andb_true_iff in Hb as [-> Hb].
  destruct word; rewrite IH by done; done.
Qed.

Lemma split_ws_from_blank_end word s b :
  blank b = true → split_ws_from word (s ++ b) = split_ws_from word s.
Proof.
  intros Hb. revert word. induction s as [|c s IH]; intros word; simpl.
  - by apply split_ws_from_blank.
  - destruct (isspace c); [destruct word |]; by rewrite IH.
Qed.

Lemma lstrip_split s : ∃ p, s = p ++ lstrip s ∧ blank p = true.
Proof.
  induction s as [|c s (p & Hp & Hb)]; [by exists [] |]. simpl.
  destruct (isspace c) eqn:Hc.
  - exists (c :: p). simpl. rewrite Hc, Hb. split; [by f_equal | done].
  - by exists [].
Qed.

Lemma blank_reverse s : blank (reverse s) = blank s.
Proof.
  induction s as [|c s IH]; [done |].
  rewrite reverse_cons, blank_app, IH. simpl.
  rewrite andb_true_r. apply andb_comm.
Qed.

Lemma rstrip_split s : ∃ b, s = rstrip s ++ b ∧ blank b = true.
Proof.
  destruct (lstrip_split (reverse s)) as (p & Hp & Hb).
  exists (reverse p). split; [| by rewrite blank_reverse].
  unfold rstrip. rewrite <-reverse_app, <-Hp. by rewrite reverse_involutive.
Qed.

Lemma split_ws_lstrip s : split_ws (lstrip s) = split_ws s.
Proof.
  unfold split_ws. induction s as [|c s IH]; [done |]. simpl.
  destruct (isspace c) eqn:Hc; [done |]. simpl. by rewrite Hc.
Qed.

Lemma normalize_strip s : normalize (strip s) = normalize s.
Proof.
  unfold normalize. f_equal. rewrite <-(split_ws_lstrip s).
  destruct (rstrip_split (lstrip s)) as (b & Hs & Hb).
  unfold strip. rewrite Hs at 2. unfold split_ws.
  by rewrite split_ws_from_blank_end.
Qed.

Lemma join_app sep l1 l2 :
  l1 ≠ [] → l2 ≠ [] →
  join sep (l1 ++ l2) = join sep l1 ++ sep ++ join sep l2.
Proof.
  intros H1 H2. induction l1 as [|x [|y l1] IH]; [done | |].
  - simpl. by destruct l2.
  - change (join sep ((x :: y :: l1) ++ l2))
      with (x ++ sep ++ join sep ((y :: l1) ++ l2)).
    rewrite IH by done.
    change (join sep (x :: y :: l1)) with (x ++ sep ++ join sep (y :: l1)).
    by rewrite <-!app_assoc.
Qed.

Lemma join_groups sep groups :
  Forall (λ g, g ≠ []) groups →
  join sep (join sep <$> groups) = join sep (concat groups).
Proof.
  induction groups as [|g [|g2 groups] IH]; intros Hne; [done | |].
  - simpl. by rewrite app_nil_r.
  - inversion Hne as [|? ? Hg Hrest]; subst.
    change (join sep (join sep <$> g :: g2 :: groups))
      with (join sep g ++ sep ++ join sep (join sep <$> g2 :: groups)).
    rewrite IH by done.
    change (concat (g :: g2 :: groups)) with (g ++ concat (g2 :: groups)).
    rewrite join_app; [reflexivity | exact Hg |].
    inversion Hrest as [|? ? Hg2 _]; subst. simpl.
    by intros [? _]%app_eq_nil.
Qed.

(** ** The chunker keeps the sentences *)

Lemma chunk_step_groups max_chars all chunks current groups sentence :
  chunk_inv max_chars all (chunks, current) →
  chunks = join dot_space <$> groups →
  Forall (λ g, g ≠ []) groups →
  ∃ groups',
    (chunk_step max_chars (chunks, current) sentence).1
    = join dot_space <$> groups'
    ∧ Forall (λ g, g ≠ []) groups'
    ∧ concat groups' ++ (chunk_step max_chars (chunks, current) sentence).2
      = (concat groups ++ current)
        ++ List.filter (λ s, negb (falsy s)) [strip sentence].
Proof.
  intros Hinv -> Hne. unfold chunk_step.
  destruct (falsy (strip sentence)) eqn:Hs; simpl.
  { exists groups. by rewrite Hs, app_nil_r. }
  rewrite Hs. simpl.
  destruct (_ <=? _)%Z.
  - exists groups. simpl. by rewrite app_assoc.
  - destruct current as [|x current].
    + exists groups. simpl. by rewrite app_nil_r.
    + exists (groups ++ [x :: current]). cbn [fst snd].
      destruct Hinv as (_ & _ & Hcur & _). cbn [fst snd] in Hcur.
      rewrite (trimmed_strip _
                 (join_trimmed dot_space (x :: current) ltac:(done) Hcur)).
      split_and!.
      * by rewrite fmap_app.
      * apply Forall_app. split; [done | by constructor].
      * rewrite concat_app. simpl. by rewrite app_nil_r.
Qed.

Lemma chunk_loop_groups max_chars all pieces chunks current groups :
  (∀ s, s ∈ pieces → s ∈ all) →
  chunk_inv max_chars all (chunks, current) →
  chunks = join dot_space <$> groups →
  Forall (λ g, g ≠ []) groups →
  ∃ groups',
    (foldl (chunk_step max_chars) (chunks, current) pieces).1
    = join dot_space <$> groups'
    ∧ Forall (λ g, g ≠ []) groups'
    ∧ concat groups' ++ (foldl (chunk_step max_chars) (chunks, current) pieces).2
      = (concat groups ++ current)
        ++ List.filter (λ s, negb (falsy s)) (strip <$> pieces).
Proof.
  revert chunks current groups.
  induction pieces as [|s pieces IH]; intros chunks current groups Hsub Hinv Hc Hne.
  - exists groups. simpl. by rewrite app_nil_r.
  - cbn [foldl].
    destruct (chunk_step_groups max_chars all chunks current groups s Hinv Hc Hne)
      as (groups1 & Hc1 & Hne1 & Hcat1).
    pose proof (chunk_step_inv max_chars all (chunks, current) s
                  ltac:(apply Hsub; by left) Hinv) as Hinv1.
    destruct (chunk_step max_chars (chunks, current) s) as [chunks1 current1].
    simpl in Hc1, Hcat1.
    destruct (IH chunks1 current1 groups1
                ltac:(intros ? ?; apply Hsub; by right) Hinv1 Hc1 Hne1)
      as (groups2 & Hc2 & Hne2 & Hcat2).
    exists groups2. split_and!; [done | done |].
    rewrite Hcat2, Hcat1, fmap_cons. simpl.
    destruct (negb (falsy (strip s))); by rewrite <-!app_assoc.
Qed.

Lemma chunk_text_groups text max_chars :
  (max_chars < len (normalize text))%Z →
  ∃ groups,
    _chunk_text text max_chars = join dot_space <$> groups
    ∧ Forall (λ g, g ≠ []) groups
    ∧ concat groups = packed_sentences text.
Proof.
  intros Hlong.
  destruct (chunk_text_long text max_chars Hlong)
    as (chunks & current & Hloop & ->).
  assert (chunk_inv max_chars (split_sentences (normalize text)) ([], []))
    as Hinv0 by (by split_and!; [constructor | constructor | constructor | left]).
  pose proof (chunk_loop_inv max_chars _ (split_sentences (normalize text))
                ([], []) ltac:(done) Hinv0) as Hinv.
  destruct (chunk_loop_groups max_chars _ (split_sentences (normalize text))
              [] [] [] ltac:(done) Hinv0 eq_refl ltac:(constructor))
    as (groups & Hc & Hne & Hcat).
  rewrite Hloop in Hinv, Hc, Hcat. simpl in Hc, Hcat.
  destruct current as [|x current].
  - exists groups. rewrite app_nil_r in Hcat. by split_and!.
  - exists (groups ++ [x :: current]).
    destruct Hinv as (_ & _ & Hcur & _). simpl in Hcur.
    rewrite (trimmed_strip _
                 (join_trimmed dot_space (x :: current) ltac:(done) Hcur)).
    split_and!.
    + by rewrite fmap_app, Hc.
    + apply Forall_app. split; [done | by constructor].
    + rewrite concat_app. simpl. by rewrite app_nil_r.
Qed.

(** X2: When the normalized text is longer than the bound, the chunker loses
    and reorders nothing: the chunks are the non-empty stripped sentences of
    the normalized text, in order, packed into non-empty groups and each
    group joined with a dot and a space, so that joining the chunks with a
    dot and a space gives the same string as joining those sentences. *)
Theorem chunk_text_keeps_sentences text max_chars :
  (max_chars < len (normalize text))%Z →
  (∃ groups,
     _chunk_text text max_chars = join dot_space <$> groups
     ∧ Forall (λ g, g ≠ []) groups
     ∧ concat groups = packed_sentences text)
  ∧ join dot_space (_chunk_text text max_chars)
    = join dot_space (packed_sentences text).
Proof.
  intros Hlong.
  destruct (chunk_text_groups text max_chars Hlong) as (groups & Hc & Hne & Hcat).
  split; [by exists groups |].
  by rewrite Hc, join_groups, Hcat.
Qed.

(** X1: White-space normalization, the first step of the chunker and of the
    summarizer, is idempotent and unaffected by stripping its input first;
    its result is empty exactly when the text has no character other than
    white space, and otherwise starts and ends with a character that is not
    white space. *)
Theorem normalize_canonical text :
  normalize (normalize text) = normalize text
  ∧ normalize (strip text) = normalize text
  ∧ (normalize text = [] ↔ blank text = true)
  ∧ (blank text = false → trimmed (normalize text)).
Proof.
  split_and!.
  - apply normalize_idempotent.
  - apply normalize_strip.
  - apply normalize_nil_blank.
  - apply normalize_trimmed.
Qed.

(** ** The engine handle *)

Lemma get_summarizer_load_ok W st model :
  _summarizer st = None → pipeline W = Ok model →
  get_summarizer W st
  = (Ok (Some model),
     {| log := log st ++ [(INFO, LoadingModel); (INFO, ModelLoaded)];
        _summarizer := Some model;
        headlinesData := headlinesData st;
        clock := clock st |}).
Proof.
  intros Hs Hp.
  unfold get_summarizer, load_models_with_caching, read_summarizer,
    write_summarizer, logger, add_log, try_except, lift, mbind, M_mbind,
    M_bind, mret, M_mret, M_ret.
  rewrite Hs. simpl. rewrite Hs, Hp. simpl. by rewrite <-app_assoc.
Qed.

Lemma get_summarizer_load_fails W st e :
  _summarizer st = None → pipeline W = Raise e →
  get_summarizer W st
  = (Ok None,
     {| log := log st ++ [(INFO, LoadingModel); (ERROR, ModelLoadError e);
                          (WARNING, FallBackToTruncation)];
        _summarizer := None;
        headlinesData := headlinesData st;
        clock := clock st |}).
Proof.
  intros Hs Hp.
  unfold get_summarizer, load_models_with_caching, read_summarizer,
    write_summarizer, logger, add_log, try_except, lift, mbind, M_mbind,
    M_bind, mret, M_mret, M_ret.
  rewrite Hs. simpl. rewrite Hs, Hp. simpl. rewrite Hs.
  by rewrite <-!app_assoc.
Qed.

(** X3: get_summarizer returns a loaded engine without touching the state;
    with none loaded it loads the model once, logs the loading and its
    success and keeps the engine so that the next call does nothing; when
    loading fails it returns None, nothing is kept, and the next call tries
    (and logs) the load again. *)
Theorem get_summarizer_loads_once W st :
  (∀ engine,
     _summarizer st = Some engine →
     get_summarizer W st = (Ok (Some engine), st))
  ∧ (∀ model,
       _summarizer st = None → pipeline W = Ok model →
       fst (get_summarizer W st) = Ok (Some model)
       ∧ log (snd (get_summarizer W st))
         = log st ++ [(INFO, LoadingModel); (INFO, ModelLoaded)]
       ∧ get_summarizer W (snd (get_summarizer W st))
         = (Ok (Some model), snd (get_summarizer W st)))
  ∧ (∀ e,
       _summarizer st = None → pipeline W = Raise e →
       fst (get_summarizer W st) = Ok None
       ∧ _summarizer (snd (get_summarizer W st)) = None
       ∧ log (snd (get_summarizer W (snd (get_summarizer W st))))
         = log st
           ++ [(INFO, LoadingModel); (ERROR, ModelLoadError e);
               (WARNING, FallBackToTruncation)]
           ++ [(INFO, LoadingModel); (ERROR, ModelLoadError e);
               (WARNING, FallBackToTruncation)]).
Proof.
  split_and!.
  - intros engine. apply get_summarizer_loaded.
  - intros model Hs Hp. rewrite (get_summarizer_load_ok W st model Hs Hp).
    split_and!; [done | done |]. by apply get_summarizer_loaded.
  - intros e Hs Hp. rewrite (get_summarizer_load_fails W st e Hs Hp).
    split_and!; [done | done |].
    erewrite (get_summarizer_load_fails W _ e); [| done | done]. simpl.
    by rewrite <-app_assoc.
Qed.

(** ** Lengths *)

Lemma join_cons_length sep x rest :
  length (join sep (x :: rest))
  ≤ length x + (match rest with [] => 0 | _ => length sep end
                + length (join sep rest)).
Proof.
  destruct rest as [|y rest]; simpl; [lia |].
  rewrite !length_app. lia.
Qed.

Lemma split_ws_from_length word s :
  length (join [space] (split_ws_from word s)) ≤ length word + length s.
Proof.
  revert word. induction s as [|c s IH]; intros word; simpl.
  - destruct word; simpl; lia.
  - destruct (isspace c).
    + destruct word as [|x word].
      * specialize (IH []). simpl in IH. lia.
      * pose proof (join_cons_length [space] (x :: word)
                      (split_ws_from [] s)) as Hj.
        specialize (IH []). simpl in *.
        destruct (split_ws_from [] s); simpl in *; lia.
    + specialize (IH (word ++ [c])). rewrite length_app in IH. simpl in IH. lia.
Qed.

Lemma normalize_len text : (len (normalize text) ≤ len text)%Z.
Proof.
  unfold len, normalize, split_ws.
  pose proof (split_ws_from_length [] text). simpl in *. lia.
Qed.

Lemma truncate_len n s : (len (truncate n s) ≤ Z.of_nat n + 3)%Z.
Proof.
  unfold truncate, len.
  destruct (Z.ltb_spec (Z.of_nat n) (Z.of_nat (length s))).
  - rewrite length_app, length_take. simpl. lia.
  - lia.
Qed.

(** X4: When no engine can be had and the normalized text is longer than 400
    characters, summarize_text returns the normalized text itself if it has
    at most 800 characters and otherwise its first 800 characters followed
    by three dots: never more than 803 characters. *)
Theorem summarize_text_fallback W text st :
  (400 < len (normalize text))%Z → engine_in_use W st = None →
  fst (summarize_text W text st) = Ok (truncate 800 (normalize text))
  ∧ (len (truncate 800 (normalize text)) ≤ 803)%Z
  ∧ ((len (normalize text) ≤ 800)%Z →
     fst (summarize_text W text st) = Ok (normalize text))
  ∧ ((800 < len (normalize text))%Z →
     fst (summarize_text W text st)
     = Ok (take 800 (normalize text) ++ py "...")).
Proof.
  intros Hlong Hnone.
  assert (fst (summarize_text W text st) = Ok (truncate 800 (normalize text)))
    as Hrun.
  { destruct (summarize_text_cases W text st)
      as [[-> _] | [(_ & Hle & _) | [(_ & _ & st' & ->)
         | (_ & engine & st' & Huse & _)]]];
      [by vm_compute in Hlong | lia | done | congruence]. }
  split_and!; [done | apply (truncate_len 800) | |].
  - intros Hle. rewrite Hrun. unfold truncate.
    destruct (Z.ltb_spec (Z.of_nat 800) (len (normalize text))); [lia | done].
  - intros Hgt. rewrite Hrun. unfold truncate.
    destruct (Z.ltb_spec (Z.of_nat 800) (len (normalize text))); [done | lia].
Qed.

(** X5: With an engine in use and a normalized text of 401 to 700
    characters, summarize_text calls the engine once on the whole normalized
    text with max_length 120 and min_length 40: a summary of at most 500
    normalized characters is returned normalized, and if the engine raises,
    the result is the normalized first 300 characters of the text. *)
Theorem summarize_text_single_chunk W text st engine :
  (400 < len (normalize text) ≤ 700)%Z →
  engine_in_use W st = Some engine →
  (∀ summary,
     engine (normalize text) 120%Z 40%Z = Ok summary →
     (len (normalize summary) ≤ 500)%Z →
     fst (summarize_text W text st) = Ok (normalize summary))
  ∧ (∀ e,
       engine (normalize text) 120%Z 40%Z = Raise e →
       fst (summarize_text W text st)
       = Ok (normalize (take 300 (normalize text)))).
Proof.
  intros [Hlong Hshort] Huse.
  destruct (summarize_text_cases W text st)
    as [[-> _] | [(_ & Hle & _) | [(_ & Hnone & _)
       | (_ & engine' & st' & Huse' & Hrun)]]];
    [by vm_compute in Hlong | lia | congruence |].
  assert (engine' = engine) as -> by congruence.
  rewrite chunk_text_short in Hrun by (by rewrite normalize_idempotent).
  rewrite normalize_idempotent in Hrun. simpl in Hrun.
  unfold partial_summary in Hrun. rewrite Hrun. clear Hrun. simpl.
  split.
  - intros summary -> Hle. rewrite normalize_strip.
    by rewrite (proj2 (Z.leb_le _ _) Hle).
  - intros e ->.
    assert (len (normalize (take 300 (normalize text))) ≤ 500)%Z as Hle.
    { pose proof (normalize_len (take 300 (normalize text))) as Hn.
      unfold len in *. rewrite length_take in Hn. lia. }
    by rewrite (proj2 (Z.leb_le _ _) Hle).
Qed.

(** ** The table *)

Lemma next_id_above t r : r ∈ rows t → (row_id r < next_id t)%Z.
Proof.
  unfold next_id. intros Hr.
  assert (row_id r ≤ foldr Z.max 0 (row_id <$> rows t))%Z; [| lia].
  induction (rows t) as [|x l IH]; [inversion Hr |].
  rewrite fmap_cons. cbn [foldr].
  apply elem_of_cons in Hr as [-> | Hr]; [lia |].
  specialize (IH Hr). lia.
Qed.

Lemma save_headline_no_url d st :
  d !! "url" = None → save_headline d st = (Ok tt, st).
Proof.
  intros Hurl. unfold save_headline.
  by rewrite (bool_decide_eq_true_2 _ Hurl), orb_true_r.
Qed.

Lemma save_headline_inserts st table d url :
  headlinesData st = Some table → d !! "url" = Some url →
  save_headline d st
  = (Ok tt,
     {| log := log st;
        _summarizer := _summarizer st;
        headlinesData :=
          Some (insert_or_replace (clock st) url
                  (dict_get_or d "source" (PStr (py "unknown")))
                  (dict_get d "picture") (dict_get d "heading")
                  (dict_get d "blog") table);
        clock := clock st |}).
Proof.
  intros Htable Hurl. unfold save_headline.
  rewrite bool_decide_eq_false_2
    by (intros ->; by rewrite lookup_empty in Hurl).
  rewrite bool_decide_eq_false_2 by (by rewrite Hurl).
  unfold try_except_class, try_except, execute_insert_or_replace, read_table,
    read_clock, write_table, mbind, M_mbind, M_bind. simpl.
  rewrite Htable. unfold dict_get at 1. by rewrite Hurl.
Qed.

Lemma save_headline_no_table st d url :
  headlinesData st = None → d !! "url" = Some url →
  save_headline d st
  = (Ok tt, add_log st (ERROR, DatabaseError no_such_table)).
Proof.
  intros Htable Hurl. unfold save_headline.
  rewrite bool_decide_eq_false_2
    by (intros ->; by rewrite lookup_empty in Hurl).
  rewrite bool_decide_eq_false_2 by (by rewrite Hurl).
  unfold try_except_class, try_except, execute_insert_or_replace, read_table,
    raise, mbind, M_mbind, M_bind. simpl.
  by rewrite Htable.
Qed.

Lemma filter_fmap_NoDup {A B} (f : A → B) (p : A → bool) (l : list A) :
  NoDup (f <$> l) → NoDup (f <$> List.filter p l).
Proof.
  induction l as [|x l IH]; [done |]. rewrite fmap_cons, NoDup_cons.
  intros [Hx Hl]. simpl. destruct (p x); [| by apply IH].
  rewrite fmap_cons, NoDup_cons. split; [| by apply IH].
  intros (y & Hy & Hin)%list_elem_of_fmap. apply Hx.
  apply list_elem_of_fmap. exists y. split; [done |].
  apply list_elem_of_In. apply list_elem_of_In, filter_In in Hin. tauto.
Qed.

Lemma filter_omap_NoDup {A B} (g : A → option B) (p : A → bool) (l : list A) :
  NoDup (omap g l) → NoDup (omap g (List.filter p l)).
Proof.
  induction l as [|x l IH]; [done |]. simpl.
  destruct (p x); simpl; destruct (g x) as [b|] eqn:Hg;
    rewrite ?NoDup_cons; try (intros [Hx Hl]); try (by apply IH).
  split; [| by apply IH].
  intros (y & Hy & Hgy)%list_elem_of_omap. apply Hx.
  apply list_elem_of_omap. exists y. split; [| done].
  apply list_elem_of_In. apply list_elem_of_In, filter_In in Hy. tauto.
Qed.

Lemma insert_or_replace_ok now url source picture heading blog t :
  table_ok t →
  table_ok (insert_or_replace now url source picture heading blog t).
Proof.
  intros (Hids & Hseq & Hurls). unfold table_ok, insert_or_replace. simpl.
  split_and!.
  - rewrite fmap_app. apply NoDup_app. split_and!.
    + by apply filter_fmap_NoDup.
    + intros id (r & -> & Hr)%list_elem_of_fmap. simpl.
      rewrite list_elem_of_singleton.
      apply list_elem_of_In, filter_In in Hr as [Hr%list_elem_of_In _].
      apply next_id_above in Hr. lia.
    + simpl. apply NoDup_singleton.
  - apply Forall_app. split; [| apply Forall_singleton; simpl; lia].
    apply Forall_forall. intros r Hr.
    apply list_elem_of_In, filter_In in Hr as [Hr%list_elem_of_In _].
    apply next_id_above in Hr. lia.
  - rewrite omap_app. apply NoDup_app. split_and!.
    + by apply filter_omap_NoDup.
    + intros u (r & Hr & Hu)%list_elem_of_omap. simpl.
      unfold stored_url at 1. simpl.
      destruct url as [|u']; [apply not_elem_of_nil |].
      rewrite list_elem_of_singleton. intros ->.
      apply list_elem_of_In, filter_In in Hr as [_ Hr].
      unfold conflicts in Hr. unfold stored_url in Hu.
      destruct (row_url r) as [|v] eqn:Hv; [done |]. injection Hu as ->.
      rewrite (bool_decide_eq_true_2 (PStr u' = PStr u')) in Hr by done.
      by rewrite orb_true_r in Hr.
    + simpl. unfold stored_url. simpl.
      destruct url; [constructor | apply NoDup_singleton].
Qed.

Lemma init_db_run st :
  _init_db st
  = (Ok tt,
     add_log
       {| log := log st;
          _summarizer := _summarizer st;
          headlinesData :=
            Some (default {| rows := []; sequence := 0 |} (headlinesData st));
          clock := clock st |}
       (INFO, DatabaseInitialized)).
Proof.
  unfold _init_db, create_table_if_not_exists, read_table, write_table,
    logger, mbind, M_mbind, M_bind, mret, M_mret, M_ret. simpl.
  destruct st as [l s [t|] c]; reflexivity.
Qed.

Lemma empty_table_ok : table_ok {| rows := []; sequence := 0 |}.
Proof. split_and!; simpl; constructor. Qed.

Lemma save_headline_ok d st : fst (save_headline d st) = Ok tt.
Proof.
  destruct (d !! "url") as [url|] eqn:Hurl.
  - destruct (headlinesData st) as [t|] eqn:Ht.
    + by rewrite (save_headline_inserts st t d url).
    + by rewrite (save_headline_no_table st d url).
  - by rewrite save_headline_no_url.
Qed.

(** X6: a record without the key url is skipped by save_headline before
    the database is touched: it returns with the state as it was.  A
    record with the key, saved when the table does not exist, is not
    stored and nothing is raised: the sqlite3 error is caught and added
    to the log, whatever the values of the record are. *)
Theorem save_headline_skips_or_logs d st :
  (d !! "url" = None → save_headline d st = (Ok tt, st))
  ∧ (is_Some (d !! "url") → headlinesData st = None →
     save_headline d st
     = (Ok tt, add_log st (ERROR, DatabaseError no_such_table))).
Proof.
  split.
  - apply save_headline_no_url.
  - intros [url Hurl] Ht. by apply (save_headline_no_table st d url).
Qed.

(** X7: _init_db and save_headline keep the constraints of the headlinesData
    table: the ids of the rows are distinct and none is above the
    autoincrement counter, and no two rows have the same url. *)
Theorem table_constraints_kept st :
  ((∀ t, headlinesData st = Some t → table_ok t) →
   ∃ t', headlinesData (snd (_init_db st)) = Some t' ∧ table_ok t')
  ∧ (∀ d t,
       headlinesData st = Some t → table_ok t →
       ∃ t', headlinesData (snd (save_headline d st)) = Some t'
             ∧ table_ok t').
Proof.
  split.
  - intros Hok. rewrite init_db_run. simpl. eexists. split; [reflexivity |].
    destruct (headlinesData st) as [t|]; simpl; [by apply Hok |].
    apply empty_table_ok.
  - intros d t Ht Hok. destruct (d !! "url") as [url|] eqn:Hurl.
    + rewrite (save_headline_inserts st t d url Ht Hurl). simpl.
      eexists. split; [reflexivity |]. by apply insert_or_replace_ok.
    + rewrite save_headline_no_url by done. by exists t.
Qed.

Lemma filter_other_urls id url l :
  (∀ r, r ∈ l → row_id r ≠ id) →
  List.filter (λ r, negb (has_url url r))
    (List.filter (λ r, negb (conflicts id (PStr url) r)) l)
  = List.filter (λ r, negb (has_url url r)) l.
Proof.
  induction l as [|r l IH]; intros Hid; [done |]. simpl.
  assert (bool_decide (row_id r = id) = false) as Hr
    by (apply bool_decide_eq_false_2, Hid; by left).
  unfold conflicts at 1. rewrite Hr. simpl. unfold has_url at 2 4.
  destruct (bool_decide (row_url r = PStr url)) eqn:Hu; simpl.
  - apply IH. intros r' Hr'. apply Hid. by right.
  - unfold has_url at 1. rewrite Hu. simpl. f_equal.
    apply IH. intros r' Hr'. apply Hid. by right.
Qed.

Lemma has_url_row url r : row_url r = PStr url → has_url url r = true.
Proof. intros H. unfold has_url. by apply bool_decide_eq_true_2. Qed.

(** X8: Saving a record with a url changes no row of another url (the rows
    with other urls are the same, in the same order, before and after),
    writes nothing to the log and leaves the loaded engine alone. *)
Theorem save_headline_keeps_other_rows st t d url :
  headlinesData st = Some t → d !! "url" = Some (PStr url) →
  ∃ t',
    headlinesData (snd (save_headline d st)) = Some t'
    ∧ List.filter (λ r, negb (has_url url r)) (rows t')
      = List.filter (λ r, negb (has_url url r)) (rows t)
    ∧ log (snd (save_headline d st)) = log st
    ∧ _summarizer (snd (save_headline d st)) = _summarizer st.
Proof.
  intros Ht Hurl. rewrite (save_headline_inserts st t d _ Ht Hurl). simpl.
  eexists. split; [reflexivity |]. split; [| done].
  unfold insert_or_replace. cbn [rows]. rewrite List.filter_app.
  cbn [List.filter]. erewrite has_url_row by reflexivity. cbn [negb].
  rewrite app_nil_r. apply filter_other_urls.
  intros r Hr%next_id_above. lia.
Qed.

(** ** Listing *)

Lemma newer_first_total : Total newer_first.
Proof. intros r1 r2. unfold newer_first. lia. Qed.

Lemma take_Sorted {A} (R : relation A) n l :
  Sorted R l → Sorted R (take n l).
Proof.
  intros Hs. revert n. induction Hs as [|x l Hs IH Hd]; intros n.
  - by rewrite take_nil.
  - destruct n as [|n]; [constructor |]. simpl. constructor; [apply IH |].
    destruct Hd as [|y l Hxy]; [by rewrite take_nil; constructor |].
    destruct n; by constructor.
Qed.

Lemma sqlite_integer_true n :
  (- 2 ^ 63 ≤ n < 2 ^ 63)%Z → sqlite_integer n = true.
Proof.
  intros [Hlow Hhigh]. unfold sqlite_integer.
  by rewrite (proj2 (Z.leb_le _ _) Hlow), (proj2 (Z.ltb_lt _ _) Hhigh).
Qed.

Lemma sqlite_integer_false n :
  (n < - 2 ^ 63 ∨ 2 ^ 63 ≤ n)%Z → sqlite_integer n = false.
Proof.
  intros [Hlow | Hhigh]; unfold sqlite_integer.
  - by rewrite (proj2 (Z.leb_gt _ _) Hlow).
  - by rewrite (proj2 (Z.ltb_ge _ _) Hhigh), andb_false_r.
Qed.

Lemma get_all_headlines_rows limit st t :
  headlinesData st = Some t → (- 2 ^ 63 ≤ limit < 2 ^ 63)%Z →
  get_all_headlines limit st = (Ok (row_to_dict <$> selected_rows limit t), st).
Proof.
  intros Ht Hrange.
  unfold get_all_headlines, read_table, mbind, M_mbind, M_bind.
  by rewrite Ht, (sqlite_integer_true limit Hrange).
Qed.

Lemma get_all_headlines_overflow limit st t :
  headlinesData st = Some t → (limit < - 2 ^ 63 ∨ 2 ^ 63 ≤ limit)%Z →
  get_all_headlines limit st = (Raise overflow_error, st).
Proof.
  intros Ht Hrange.
  unfold get_all_headlines, read_table, mbind, M_mbind, M_bind.
  by rewrite Ht, (sqlite_integer_false limit Hrange).
Qed.

Lemma get_all_headlines_no_table limit st :
  headlinesData st = None →
  get_all_headlines limit st = (Raise no_such_table, st).
Proof.
  intros Ht.
  unfold get_all_headlines, read_table, raise, mbind, M_mbind, M_bind.
  by rewrite Ht.
Qed.

(** Newest first, in particular: the timestamps never go up. *)
Lemma newer_first_timestamps r1 r2 :
  newer_first r1 r2 → (row_timestamp r2 ≤ row_timestamp r1)%Z.
Proof. unfold newer_first. lia. Qed.

Lemma selected_rows_sorted limit t : Sorted newer_first (selected_rows limit t).
Proof.
  unfold selected_rows, sql_limit.
  pose proof (@Sorted_merge_sort _ newer_first _ newer_first_total (rows t)).
  destruct (_ <? _)%Z; [done | by apply take_Sorted].
Qed.

Lemma selected_rows_all limit t :
  (limit < 0 ∨ Z.of_nat (length (rows t)) ≤ limit)%Z →
  selected_rows limit t ≡ₚ rows t.
Proof.
  intros Hlimit. unfold selected_rows, sql_limit.
  destruct (Z.ltb_spec limit 0); [apply merge_sort_Permutation |].
  rewrite take_ge; [apply merge_sort_Permutation |].
  rewrite (Permutation_length (merge_sort_Permutation _ _)). lia.
Qed.

(** X9: with a limit that fits a signed 64-bit integer, get_all_headlines
    leaves the state as it is and returns the rows of the table as
    dictionaries, newest timestamp first and rows of one timestamp by
    ascending id: with a limit of 0 or more the first min(limit, number
    of rows) of them, with a negative limit all of them (LIMIT of
    SQLite).  With any other limit it raises OverflowError, and without
    the table it raises the sqlite3 error, whatever the limit. *)
Theorem get_all_headlines_listing limit st :
  (∀ t,
     headlinesData st = Some t → (- 2 ^ 63 ≤ limit < 2 ^ 63)%Z →
     get_all_headlines limit st
     = (Ok (row_to_dict <$> selected_rows limit t), st)
     ∧ Sorted newer_first (selected_rows limit t)
     ∧ selected_rows limit t ⊆+ rows t
     ∧ ((0 ≤ limit)%Z →
        length (selected_rows limit t)
        = Nat.min (Z.to_nat limit) (length (rows t)))
     ∧ ((limit < 0)%Z → selected_rows limit t ≡ₚ rows t))
  ∧ (∀ t,
       headlinesData st = Some t → (limit < - 2 ^ 63 ∨ 2 ^ 63 ≤ limit)%Z →
       get_all_headlines limit st = (Raise overflow_error, st))
  ∧ (headlinesData st = None →
     get_all_headlines limit st = (Raise no_such_table, st)).
Proof.
  split_and!.
  - intros t Ht Hrange. split_and!.
    + by apply get_all_headlines_rows.
    + apply selected_rows_sorted.
    + unfold selected_rows, sql_limit.
      destruct (_ <? _)%Z.
      * by rewrite merge_sort_Permutation.
      * etrans; [apply sublist_submseteq, sublist_take |].
        by rewrite merge_sort_Permutation.
    + intros Hpos. unfold selected_rows, sql_limit.
      destruct (Z.ltb_spec limit 0); [lia |].
      by rewrite length_take, (Permutation_length (merge_sort_Permutation _ _)).
    + intros Hneg. apply selected_rows_all. by left.
  - intros t. apply get_all_headlines_overflow.
  - apply get_all_headlines_no_table.
Qed.

Lemma row_to_dict_headline id now source url picture heading blog :
  row_to_dict
    (row_of id (headline_dict source url picture heading blog) now)
  = headline_dict source url picture heading blog.
Proof.
  unfold row_to_dict, row_of, headline_dict, dict_get, dict_get_or. simpl.
  apply map_eq. intros k.
  destruct (decide (k = "url")) as [-> | ?]; [by simplify_map_eq |].
  destruct (decide (k = "source")) as [-> | ?]; [by simplify_map_eq |].
  destruct (decide (k = "picture")) as [-> | ?]; [by simplify_map_eq |].
  destruct (decide (k = "heading")) as [-> | ?]; [by simplify_map_eq |].
  destruct (decide (k = "blog")) as [-> | ?]; by simplify_map_eq.
Qed.

(** X10: round trip of the store: after a record built by an extractor
    (source, url, picture, heading, blog) has been saved into an existing
    table, get_all_headlines returns a list that contains that record,
    with every field as it was saved, for every limit that fits a signed
    64-bit integer and is negative or above the number of rows before
    the save. *)
Theorem saved_record_is_listed st t source url picture heading blog limit :
  headlinesData st = Some t →
  (- 2 ^ 63 ≤ limit < 0 ∨ Z.of_nat (length (rows t)) < limit < 2 ^ 63)%Z →
  ∃ listed,
    get_all_headlines limit
      (snd (save_headline (headline_dict source url picture heading blog) st))
    = (Ok listed,
       snd (save_headline (headline_dict source url picture heading blog) st))
    ∧ headline_dict source url picture heading blog ∈ listed.
Proof.
  intros Ht Hlimit.
  assert (headline_dict source url picture heading blog !! "url"
          = Some (PStr url)) as Hurl
    by (unfold headline_dict; by simplify_map_eq).
  rewrite (save_headline_inserts st t _ _ Ht Hurl). simpl.
  erewrite get_all_headlines_rows; [| reflexivity | lia].
  eexists. split; [reflexivity |].
  rewrite <-(row_to_dict_headline (next_id t) (clock st)) at 1.
  apply list_elem_of_fmap_2.
  rewrite selected_rows_all.
  - unfold insert_or_replace. simpl. apply elem_of_app. right.
    apply list_elem_of_singleton. unfold row_of, dict_get at 1.
    by rewrite Hurl.
  - unfold insert_or_replace. simpl. rewrite length_app. simpl.
    pose proof (filter_length_le
                  (λ r, negb (conflicts (next_id t) (PStr url) r)) (rows t)).
    lia.
Qed.

(** ** The routes, again *)

Lemma save_all_ok results st :
  fst (for_each results tt (λ _ result, save_headline result) st) = Ok tt.
Proof.
  revert st. induction results as [|d results IH]; intros st; [done |].
  simpl. unfold mbind, M_mbind, M_bind.
  pose proof (save_headline_ok d st) as Hd.
  destruct (save_headline d st) as [[[]|e] st1]; [apply IH | done].
Qed.

Lemma save_and_respond_run query source results st :
  save_and_respond query source results st
  = (Ok {| http_status := 200;
           body := JsonSearch query source (length results) results |},
     snd (for_each results tt (λ _ result, save_headline result) st)).
Proof.
  unfold save_and_respond, mbind, M_mbind, M_bind, mret, M_mret, M_ret.
  pose proof (save_all_ok results st) as Hok.
  by destruct (for_each _ _ _ _) as [[[]|e] st1].
Qed.

Lemma search_then_respond (search : pystr → M (list Dict)) query source st :
  (∃ resp st',
     (results ← search query; save_and_respond query source results) st
     = (Ok resp, st') ∧ http_status resp = 200%Z)
  ∨ (∃ e st',
       (results ← search query; save_and_respond query source results) st
       = (Raise e, st')).
Proof.
  unfold mbind, M_mbind, M_bind.
  destruct (search query st) as [[results | e] st1].
  - left. rewrite save_and_respond_run. eauto.
  - right. eauto.
Qed.

(** X11: The /search handler never raises, whatever the request and whatever
    the scraper does: it always returns a response, with status 200, 400 or
    500. *)
Theorem search_news_always_answers W scraper args st :
  ∃ resp st',
    search_news W scraper args st = (Ok resp, st')
    ∧ (http_status resp = 200 ∨ http_status resp = 400
       ∨ http_status resp = 500)%Z.
Proof.
  unfold search_news.
  destruct (falsy _); [eexists _, _; split; [reflexivity | auto] |].
  unfold try_except.
  repeat (case_bool_decide;
    [ match goal with
      | |- context [(?search ?q ≫= λ results, save_and_respond ?q ?s results) st] =>
          destruct (search_then_respond search q s st)
            as [(resp & st' & -> & Hs) | (e & st' & ->)];
            [eexists _, _; split; [reflexivity | auto]
            | eexists _, _; split; [reflexivity | simpl; auto]]
      end |]).
  eexists _, _; split; [reflexivity | simpl; auto].
Qed.







Lemma search_news_dispatch W scraper src args st query :
  strip (default [] (args !! "query")) = query → query ≠ [] →
  str_lower W (default (py "all") (args !! "source")) = source_name src →
  search_news W scraper args st
  = try_except
      (results ← search_source scraper src query;
       save_and_respond query (source_name src) results)
      (λ e,
       logger ERROR (SearchEndpointError e);;
       mret {| http_status := 500; body := JsonError (exn_msg e) |}) st.
Proof.
  intros Hquery Hne Hsource. unfold search_news.
  rewrite Hquery, Hsource, (proj2 (falsy_false _) Hne).
  by destruct src.
Qed.


(** X13: a /news request whose limit parameter is a numeral n that fits a
    signed 64-bit integer answers 200 with the rows newest first, n of
    them at most (for n >= 0), and leaves the state unchanged.  The
    handler has no try around the query: for a numeral outside that range
    it raises OverflowError, and when the table does not exist it raises
    the sqlite3 error, instead of answering. *)
Theorem get_news_with_limit W args st p n :
  args !! "limit" = Some p → p ≠ [] → py_int W p = Some n →
  (∀ t,
     headlinesData st = Some t → (- 2 ^ 63 ≤ n < 2 ^ 63)%Z →
     get_news W args st
     = (Ok {| http_status := 200;
              body := JsonHeadlines (row_to_dict <$> selected_rows n t) |},
        st)
     ∧ Sorted newer_first (selected_rows n t)
     ∧ ((0 ≤ n)%Z →
        length (row_to_dict <$> selected_rows n t) ≤ Z.to_nat n))
  ∧ (∀ t,
       headlinesData st = Some t → (n < - 2 ^ 63 ∨ 2 ^ 63 ≤ n)%Z →
       get_news W args st = (Raise overflow_error, st))
  ∧ (headlinesData st = None →
     get_news W args st = (Raise no_such_table, st)).
Proof.
  intros Hp Hne Hint.
  assert (get_news_limit W args st = (Ok n, st)) as Hlimit.
  { unfold get_news_limit, try_except_class, try_except.
    rewrite Hp, (proj2 (falsy_false _) Hne), Hint. done. }
  unfold get_news. rewrite (bind_ok _ _ _ _ _ Hlimit). split_and!.
  - intros t Ht Hrange. split_and!.
    + by rewrite (bind_ok _ _ _ _ _ (get_all_headlines_rows n st t Ht Hrange)).
    + apply selected_rows_sorted.
    + intros Hpos. rewrite length_fmap. unfold selected_rows, sql_limit.
      destruct (Z.ltb_spec n 0); [lia |]. rewrite length_take. lia.
  - intros t Ht Hrange. apply bind_raise.
    by apply (get_all_headlines_overflow n st t).
  - intros Ht. apply bind_raise. by apply get_all_headlines_no_table.
Qed.

(** ** Prefixes and substrings *)

Lemma startswith_app prefix s : startswith prefix (prefix ++ s) = true.
Proof.
  induction prefix as [|a prefix IH]; [done |]. simpl.
  by rewrite N.eqb_refl, IH.
Qed.

Lemma startswith_spec prefix s :
  startswith prefix s = true ↔ ∃ rest, s = prefix ++ rest.
Proof.
  split.
  - revert s. induction prefix as [|a prefix IH]; intros s H; [by exists s |].
    destruct s as [|b s]; [done |]. simpl in H.
    apply andb_true_iff in H as [->%N.eqb_eq H].
    destruct (IH s H) as [rest ->]. by exists rest.
  - intros [rest ->]. apply startswith_app.
Qed.

Lemma contains_app_r sub p s :
  contains sub s = true → contains sub (p ++ s) = true.
Proof.
  intros H. induction p as [|c p IH]; [done |]. simpl.
  by rewrite IH, orb_true_r.
Qed.

Lemma replace_prefix old new s :
  old ≠ [] → startswith old s = true →
  startswith new (replace old new s) = true.
Proof.
  intros Hold Hs. destruct old as [|a old]; [done |].
  destruct s as [|b s]; [done |].
  unfold replace. cbn [replace_from]. rewrite Hs. apply startswith_app.
Qed.

(** ** The sets of links *)

Lemma elem_of_set_add x href links :
  x ∈ set_add href links ↔ x = href ∨ x ∈ links.
Proof.
  unfold set_add. case_bool_decide.
  - split; [by right | by intros [-> | ?]].
  - rewrite elem_of_app, list_elem_of_singleton. tauto.
Qed.

Lemma set_add_NoDup href links : NoDup links → NoDup (set_add href links).
Proof.
  intros Hl. unfold set_add. case_bool_decide; [done |].
  apply NoDup_app. split_and!; [done | | apply NoDup_singleton].
  intros x Hx ->%list_elem_of_singleton. done.
Qed.

(** A loop that adds to the set only members that pass a test builds a
    set of members that pass it. *)
Lemma sifted_links (step : list pystr → pystr → list pystr)
    (good : pystr → Prop) hrefs :
  (∀ links href,
     step links href = links
     ∨ ∃ link, step links href = set_add link links ∧ good link) →
  NoDup (foldl step [] hrefs)
  ∧ ∀ link, link ∈ foldl step [] hrefs → good link.
Proof.
  intros Hstep.
  assert (∀ links,
            NoDup links ∧ (∀ link, link ∈ links → good link) →
            NoDup (foldl step links hrefs)
            ∧ ∀ link, link ∈ foldl step links hrefs → good link) as Hgen.
  { induction hrefs as [|href hrefs IH]; intros links [Hnd Hgood]; [done |].
    simpl. apply IH.
    destruct (Hstep links href) as [-> | (link & -> & Hlink)]; [done |].
    split; [by apply set_add_NoDup |].
    intros x [-> | Hx]%elem_of_set_add; [done | by apply Hgood]. }
  apply Hgen. split; [constructor | by intros ? ?%elem_of_nil].
Qed.

Lemma geo_links_good links href :
  geo_link links href = links
  ∨ ∃ link,
      geo_link links href = set_add link links
      ∧ startswith (py "https://www.geo.tv") link = true
      ∧ contains (py "/latest/") link = true.
Proof.
  unfold geo_link.
  destruct (contains (py "/latest/") href) eqn:Hc; [| left; reflexivity].
  destruct (startswith (py "https://www.geo.tv") href) eqn:Hs.
  - right. by exists href.
  - destruct (startswith (py "/") href); [| by left].
    right. exists (py "https://www.geo.tv" ++ href).
    split_and!; [done | apply startswith_app | by apply contains_app_r].
Qed.

Lemma bbc_links_good links href :
  bbc_link links href = links
  ∨ ∃ link,
      bbc_link links href = set_add link links
      ∧ startswith (py "https://www.bbc.com") link = true.
Proof.
  unfold bbc_link.
  destruct (contains (py "/news/") href); [| by left]. cbn [negb andb orb].
  destruct (startswith (py "https://www.bbc.co.uk") href) eqn:Hs; [| by left].
  right. eexists. split; [reflexivity |]. by apply replace_prefix.
Qed.

Lemma ary_links_good links href :
  ary_link links href = links
  ∨ ∃ link,
      ary_link links href = set_add link links
      ∧ startswith (py "https://arynews.tv") link = true
      ∧ ∀ x, x ∈ ary_excluded → contains x link = false.
Proof.
  unfold ary_link.
  destruct (startswith (py "https://arynews.tv") _) eqn:Hs; [| by left].
  cbn [negb andb orb]. destruct (existsb _ ary_excluded) eqn:Hx; [by left |].
  right. eexists. split_and!; [reflexivity | done |].
  intros x Hin%list_elem_of_In.
  destruct (contains x _) eqn:Hc; [| done].
  assert (existsb (λ x,
            contains x
              (if startswith (py "/") href
               then py "https://arynews.tv" ++ href else href))
            ary_excluded = true); [| congruence].
  apply existsb_exists. by exists x.
Qed.

Lemma samaa_links_good links href :
  samaa_link links href = links
  ∨ ∃ link,
      samaa_link links href = set_add link links
      ∧ startswith (py "https://www.samaa.tv") link = true
      ∧ (contains (py "/news/") link = true
         ∨ contains (py "/pakistan/") link = true
         ∨ contains (py "/latest-news/") link = true).
Proof.
  unfold samaa_link.
  destruct (startswith (py "https://www.samaa.tv") _) eqn:Hs; [| by left].
  cbn [negb andb orb].
  destruct (contains (py "/news/") _) eqn:H1; cbn [negb andb orb];
    [right; eexists; split_and!; [reflexivity | done | by left] |].
  destruct (contains (py "/pakistan/") _) eqn:H2; cbn [negb andb orb];
    [right; eexists; split_and!; [reflexivity | done | right; by left] |].
  destruct (contains (py "/latest-news/") _) eqn:H3; cbn [negb andb orb]; [| by left].
  right; eexists; split_and!; [reflexivity | done | right; by right].
Qed.

Lemma dawn_links_good links href :
  dawn_link links href = links
  ∨ ∃ link,
      dawn_link links href = set_add link links
      ∧ startswith (py "https://www.dawn.com") link = true
      ∧ (contains (py "/news/") link = true
         ∨ contains (py "/latest-news/") link = true).
Proof.
  unfold dawn_link.
  destruct (startswith (py "https://www.dawn.com") _) eqn:Hs; [| by left].
  cbn [negb andb orb].
  destruct (contains (py "/news/") _) eqn:H1; cbn [negb andb orb];
    [right; eexists; split_and!; [reflexivity | done | by left] |].
  destruct (contains (py "/latest-news/") _) eqn:H3; cbn [negb andb orb]; [| by left].
  right; eexists; split_and!; [reflexivity | done | by right].
Qed.

(** X14: the article links a search collects from the anchors of a results
    page are pairwise distinct, and each begins with the address of the
    source as a string (a test on the characters, not on the host) and
    passes the source's test on the path: Geo links start with
    https://www.geo.tv and contain /latest/, BBC links start with
    https://www.bbc.com, ARY links start with https://arynews.tv and
    contain none of the excluded path fragments, Samaa and Dawn links
    start with the site's address and contain one of the news path
    fragments. *)
Theorem links_of_shape hrefs :
  (∀ src, NoDup (links_of src hrefs))
  ∧ (∀ link, link ∈ links_of Geo hrefs →
       startswith (py "https://www.geo.tv") link = true
       ∧ contains (py "/latest/") link = true)
  ∧ (∀ link, link ∈ links_of BBC hrefs →
       startswith (py "https://www.bbc.com") link = true)
  ∧ (∀ link, link ∈ links_of ARY hrefs →
       startswith (py "https://arynews.tv") link = true
       ∧ ∀ x, x ∈ ary_excluded → contains x link = false)
  ∧ (∀ link, link ∈ links_of Samaa hrefs →
       startswith (py "https://www.samaa.tv") link = true
       ∧ (contains (py "/news/") link = true
          ∨ contains (py "/pakistan/") link = true
          ∨ contains (py "/latest-news/") link = true))
  ∧ (∀ link, link ∈ links_of Dawn hrefs →
       startswith (py "https://www.dawn.com") link = true
       ∧ (contains (py "/news/") link = true
          ∨ contains (py "/latest-news/") link = true)).
Proof.
  pose proof (sifted_links geo_link _ hrefs geo_links_good) as [Hg1 Hg2].
  pose proof (sifted_links bbc_link _ hrefs bbc_links_good) as [Hb1 Hb2].
  pose proof (sifted_links ary_link _ hrefs ary_links_good) as [Ha1 Ha2].
  pose proof (sifted_links samaa_link _ hrefs samaa_links_good) as [Hs1 Hs2].
  pose proof (sifted_links dawn_link _ hrefs dawn_links_good) as [Hd1 Hd2].
  split_and!; [by intros [] | done..].
Qed.

(** ** ChromeDriver *)

Section ChromeDriverFacts.
Context {W : World} (P : Platform W).

Lemma init_chromedriver_hit cache path st :
  cached_path cache = Some path →
  _init_chromedriver P cache st = (Ok (path, cache), st).
Proof. intros H. unfold _init_chromedriver. by rewrite H. Qed.

(** The path a first call settles on. *)
Lemma init_chromedriver_miss cache st :
  cached_path cache = None →
  ∃ path st',
    _init_chromedriver P cache st = (Ok (path, Some path), st')
    ∧ path =
        if path_exists P local_path then local_path
        else
          match chromedriver_install P with
          | Raise _ => py "chromedriver"
          | Ok p =>
              if endswith (py ".exe") (str_lower W p) then p
              else
                match exe_candidates P p with
                | candidate :: _ => candidate
                | [] => py "chromedriver"
                end
          end.
Proof.
  intros H. unfold _init_chromedriver. rewrite H.
  destruct (path_exists P local_path); [eexists _, _; split; reflexivity |].
  unfold try_except, lift, raise, logger, mbind, M_mbind, M_bind, mret,
    M_mret, M_ret.
  destruct (chromedriver_install P) as [p | e];
    [| eexists _, _; split; reflexivity].
  destruct (endswith (py ".exe") (str_lower W p)); cbn [negb];
    [eexists _, _; split; reflexivity |].
  destruct (exe_candidates P p); eexists _, _; split; reflexivity.
Qed.

Lemma init_chromedriver_ok cache st :
  ∃ path cache' st',
    _init_chromedriver P cache st = (Ok (path, cache'), st').
Proof.
  destruct (cached_path cache) as [p|] eqn:Hc.
  - exists p, cache, st. by apply init_chromedriver_hit.
  - destruct (init_chromedriver_miss cache st Hc) as (path & st' & Hrun & _).
    eauto.
Qed.

Lemma endswith_nil suffix : suffix ≠ [] → endswith suffix [] = false.
Proof.
  intros H. unfold endswith.
  destruct (reverse suffix) as [|a r] eqn:Hr; [| done].
  by apply (f_equal reverse) in Hr; rewrite reverse_involutive in Hr.
Qed.

(** X15: _init_chromedriver never raises and always returns a path: the
    cached path if one is cached (then nothing else happens); otherwise the
    local driver if that file exists, else the driver manager's path if it
    ends in .exe (case-insensitively), else the first .exe found beside it,
    else the bare name chromedriver, which is also the result when the
    driver manager fails; the path found is cached. *)
Theorem init_chromedriver_order cache st :
  ∃ path cache' st',
    _init_chromedriver P cache st = (Ok (path, cache'), st')
    ∧ (∀ p, cached_path cache = Some p → path = p ∧ cache' = cache ∧ st' = st)
    ∧ (cached_path cache = None →
       cache' = Some path
       ∧ path =
           if path_exists P local_path then local_path
           else
             match chromedriver_install P with
             | Raise _ => py "chromedriver"
             | Ok p =>
                 if endswith (py ".exe") (str_lower W p) then p
                 else
                   match exe_candidates P p with
                   | candidate :: _ => candidate
                   | [] => py "chromedriver"
                   end
             end).
Proof.
  destruct (cached_path cache) as [p|] eqn:Hc.
  - exists p, cache, st. split; [by apply init_chromedriver_hit |].
    split; [by intros ? [= <-] | done].
  - destruct (init_chromedriver_miss cache st Hc) as (path & st' & Hrun & Hp).
    exists path, (Some path), st'. by split_and!.
Qed.

(** X16: The driver is looked for once: provided lower-casing the empty
    string gives the empty string and the files found beside the manager's
    path have non-empty names, the path _init_chromedriver returns is non-
    empty, and every later call returns the same path from the cache without
    touching the state (no log entry, no lookup). *)
Theorem init_chromedriver_once cache st :
  str_lower W [] = [] →
  (∀ p candidate, candidate ∈ exe_candidates P p → candidate ≠ []) →
  ∃ path cache' st',
    _init_chromedriver P cache st = (Ok (path, cache'), st')
    ∧ path ≠ []
    ∧ ∀ st2, _init_chromedriver P cache' st2 = (Ok (path, cache'), st2).
Proof.
  intros Hlower Hglob.
  destruct (cached_path cache) as [p|] eqn:Hc.
  - exists p, cache, st. split_and!.
    + by apply init_chromedriver_hit.
    + unfold cached_path in Hc. destruct cache as [q|]; [| done].
      destruct q; [done |]. by injection Hc as <-.
    + intros st2. by apply init_chromedriver_hit.
  - destruct (init_chromedriver_miss cache st Hc) as (path & st' & Hrun & Hp).
    assert (path ≠ []) as Hne.
    { rewrite Hp. destruct (path_exists P local_path); [done |].
      destruct (chromedriver_install P) as [p | e]; [| done].
      destruct (endswith (py ".exe") (str_lower W p)) eqn:He.
      - intros ->. rewrite Hlower, endswith_nil in He; done.
      - destruct (exe_candidates P p) as [|c l] eqn:Hl; [done |].
        apply (Hglob p). rewrite Hl. by left. }
    exists path, (Some path), st'. split_and!; [done | done |].
    intros st2. apply init_chromedriver_hit. simpl.
    by destruct path.
Qed.

End ChromeDriverFacts.

(** ** The searches *)

Lemma fetch_html_page W url st :
  ∃ html st',
    fetch_html W url st = (Ok html, st')
    ∧ document html = fetched_page W url.
Proof.
  unfold fetched_page.
  destruct (requests_get W url) as [resp | e] eqn:Hget.
  - destruct (decide (status_code resp = 200%Z)) as [Hs | Hs].
    + rewrite (fetch_html_ok W url st resp Hget Hs), Hs. eauto.
    + rewrite (fetch_html_non_200 W url st resp Hget Hs).
      rewrite (proj2 (Z.eqb_neq _ _) Hs). eauto.
  - rewrite (fetch_html_error W url st e Hget). eauto.
Qed.

Lemma process_article_fields W src url st record st' :
  process_article W src url st = (Ok (Some record), st') →
  record !! "url" = Some (PStr url)
  ∧ record !! "source" = Some (PStr (source_name src)).
Proof.
  unfold process_article. intros Hrun.
  destruct (fetch_html_page W url st) as (html & st1 & Hfetch & _).
  rewrite (bind_ok _ _ _ _ _ Hfetch) in Hrun.
  destruct html as [html|]; [| done].
  destruct (falsy html); [done |].
  unfold lift at 1, mbind at 1, M_mbind at 1, M_bind at 1 in Hrun.
  destruct (BeautifulSoup W html) as [soup | e]; [| done].
  destruct (falsy _ || _); [done |].
  destruct (summarize_text_ok W (body_text W src soup) st1)
    as (summary & st2 & Hsum).
  rewrite (bind_ok _ _ _ _ _ Hsum) in Hrun. injection Hrun as <- <-.
  unfold headline_dict. by simplify_map_eq.
Qed.

Section SearchFacts.
Context {W : World} (P : Platform W).

Lemma process_link_run src headlines href st :
  ∃ headlines' st',
    Scraper.process_link W src headlines href st = (Ok headlines', st')
    ∧ (headlines' = headlines
       ∨ ∃ record,
           headlines' = headlines ++ [record]
           ∧ record !! "url" = Some (PStr href)
           ∧ record !! "source" = Some (PStr (source_name src))).
Proof.
  unfold Scraper.process_link, try_except, mbind, M_mbind, M_bind, mret,
    M_mret, M_ret.
  destruct (process_article W src href st) as [[[record|] | e] st1] eqn:Hrun.
  - case_bool_decide; [eauto |].
    eexists _, _. split; [reflexivity |]. right. exists record.
    split; [done |]. by eapply process_article_fields.
  - eauto.
  - eexists _, _. split; [reflexivity |]. by left.
Qed.

Lemma process_each_run src hrefs headlines st :
  ∃ found st',
    for_each hrefs headlines (Scraper.process_link W src) st
    = (Ok (headlines ++ found), st')
    ∧ length found ≤ length hrefs
    ∧ Forall (record_of src hrefs) found.
Proof.
  revert headlines st.
  induction hrefs as [|href hrefs IH]; intros headlines st.
  - exists [], st. simpl. by rewrite app_nil_r.
  - destruct (process_link_run src headlines href st)
      as (headlines1 & st1 & Hrun & Hcase).
    destruct (IH headlines1 st1) as (found & st2 & Hrest & Hlen & Hrec).
    simpl. rewrite (bind_ok _ _ _ _ _ Hrun), Hrest.
    assert (Forall (record_of src (href :: hrefs)) found) as Hrec'.
    { eapply Forall_impl; [exact Hrec |].
      intros r (Hs & link & Hin & Hu). split; [done |].
      exists link. split; [by right | done]. }
    destruct Hcase as [-> | (record & -> & Hu & Hs)].
    + exists found, st2. split_and!; [done | lia | done].
    + exists (record :: found), st2. rewrite <-app_assoc.
      split_and!; [done | simpl; lia |].
      constructor; [| done]. split; [done |].
      exists href. split; [by left | done].
Qed.

Lemma process_links_run src links st :
  ∃ results st',
    Scraper.process_links P src links st = (Ok results, st')
    ∧ length results ≤ 10
    ∧ Forall (record_of src links) results.
Proof.
  unfold Scraper.process_links.
  destruct (process_each_run src (take 10 (iteration_order P links)) [] st)
    as (found & st' & Hrun & Hlen & Hrec).
  exists found, st'. split_and!; [done | |].
  - rewrite length_take in Hlen. lia.
  - eapply Forall_impl; [exact Hrec |].
    intros r (Hs & link & Hin & Hu). split; [done |].
    exists link. split; [| done].
    rewrite <-(iteration_order_perm P links).
    apply elem_of_take in Hin as (i & Hi & _).
    by eapply list_elem_of_lookup_2.
Qed.

(** X17: The article loop of every search never raises and returns at most
    10 records (only the first 10 links are processed, in the set's
    iteration order); each record carries the name of the source and the url
    of one of the collected links. *)
Theorem process_links_results src links st :
  ∃ results st',
    Scraper.process_links P src links st = (Ok results, st')
    ∧ length results ≤ 10
    ∧ Forall (record_of src links) results.
Proof. apply process_links_run. Qed.

Lemma search_in_page_run src html st :
  match BeautifulSoup W html with
  | Raise e => Scraper.search_in_page P src html st = (Raise e, st)
  | Ok soup =>
      ∃ results st',
        Scraper.search_in_page P src html st = (Ok results, st')
        ∧ length results ≤ 10
        ∧ Forall (record_of src (links_of src (anchors_href P soup))) results
  end.
Proof.
  unfold Scraper.search_in_page, lift, logger, mbind, M_mbind, M_bind.
  destruct (BeautifulSoup W html) as [soup | e]; [| done].
  apply process_links_run.
Qed.

Lemma fetch_and_search_run src query st :
  ∃ st1,
    Scraper.fetch_and_search P src query st
    = match fetched_page W (search_url src query) with
      | None => (Ok [], st1)
      | Some html => Scraper.search_in_page P src html st1
      end.
Proof.
  unfold Scraper.fetch_and_search.
  destruct (fetch_html_page W (search_url src query)
              (add_log st (INFO, searching_for src query)))
    as (html & st1 & Hfetch & Hdoc).
  exists st1. unfold logger, mbind at 1, M_mbind at 1, M_bind at 1.
  rewrite (bind_ok _ _ _ _ _ Hfetch), Hdoc.
  by destruct (fetched_page W (search_url src query)).
Qed.

Lemma search_ary_news_run query st :
  ∃ st1,
    Scraper.search_ary_news P query st
    = match search_page W ARY query with
      | None => (Ok [], st1)
      | Some html => Scraper.search_in_page P ARY html st1
      end.
Proof.
  unfold Scraper.search_ary_news, search_page.
  destruct (fetch_html_page W (search_url ARY query)
              (add_log st (INFO, searching_for ARY query)))
    as (html & st1 & Hfetch & Hdoc).
  rewrite (bind_ok _ _ _ _ _ (logger_add INFO _ st)).
  rewrite (bind_ok _ _ _ _ _ Hfetch).
  destruct (fetched_page W (search_url ARY query)) as [page|] eqn:Hpage.
  - rewrite Hdoc. exists st1.
    rewrite (bind_ok (mret html) _ st1 html st1 eq_refl). by rewrite Hdoc.
  - rewrite Hdoc.
    destruct (fetch_html_page W (ary_fallback_url query)
                (add_log st1
                   (INFO, ScraperMessage
                      (arrows ++ py " [ARY] Trying fallback search: "
                       ++ ary_fallback_url query))))
      as (html2 & st2 & Hfetch2 & Hdoc2).
    erewrite (bind_ok _ _ st1 html2 st2);
      [| by rewrite (bind_ok _ _ _ _ _ (logger_add INFO _ st1))].
    rewrite Hdoc2.
    destruct (fetched_page W (ary_fallback_url query)); [by exists st2 |].
    eexists. reflexivity.
Qed.

Lemma fetching_search_run src query st :
  src ≠ Geo →
  ∃ st1,
    fetching_search P src query st
    = match search_page W src query with
      | None => (Ok [], st1)
      | Some html => Scraper.search_in_page P src html st1
      end.
Proof.
  intros Hsrc. destruct src; [done | | | |].
  - exact (fetch_and_search_run BBC query st).
  - exact (search_ary_news_run query st).
  - exact (fetch_and_search_run Samaa query st).
  - exact (fetch_and_search_run Dawn query st).
Qed.

(** X18: The BBC, ARY, Samaa and Dawn searches: when the search page cannot
    be fetched (for ARY: neither the search page nor the fallback page) the
    result is the empty list; when the parser rejects the fetched page its
    exception leaves the search (these searches have no handler); otherwise
    the result is at most 10 records, each of that source and for one of the
    links collected from the page. *)
Theorem fetching_search_outcomes src query st :
  src ≠ Geo →
  (search_page W src query = None →
   fst (fetching_search P src query st) = Ok [])
  ∧ (∀ html e,
       search_page W src query = Some html →
       BeautifulSoup W html = Raise e →
       fst (fetching_search P src query st) = Raise e)
  ∧ (∀ html soup,
       search_page W src query = Some html →
       BeautifulSoup W html = Ok soup →
       ∃ results,
         fst (fetching_search P src query st) = Ok results
         ∧ length results ≤ 10
         ∧ Forall (record_of src (links_of src (anchors_href P soup)))
             results).
Proof.
  intros Hsrc.
  destruct (fetching_search_run src query st Hsrc) as (st1 & ->).
  split_and!.
  - by intros ->.
  - intros html e -> Hparse.
    pose proof (search_in_page_run src html st1) as Hrun.
    rewrite Hparse in Hrun. by rewrite Hrun.
  - intros html soup -> Hparse.
    pose proof (search_in_page_run src html st1) as Hrun.
    rewrite Hparse in Hrun. destruct Hrun as (results & st' & -> & ? & ?).
    by exists results.
Qed.

End SearchFacts.

Section GeoFacts.
Context {W : World} (P : Platform W).

Lemma create_driver_run cache st :
  ∃ started cache' st',
    _create_driver P cache st = (Ok (started, cache'), st')
    ∧ ((∀ path, ∃ failure, webdriver_Chrome P path = inl failure) →
       ∃ e, started = Raise e).
Proof.
  unfold _create_driver.
  destruct (init_chromedriver_ok P cache st)
    as (path & cache' & st1 & Hinit).
  rewrite (bind_ok _ _ _ _ _ Hinit).
  destruct (webdriver_Chrome P path) as [failure | driver] eqn:Hstart.
  - destruct (is_webdriver_exception failure);
      eexists _, _, _; (split; [reflexivity | eauto]).
  - destruct (set_page_load_timeout P driver REQUEST_TIMEOUT);
      eexists _, _, _; (split; [reflexivity |]);
      intros Hfail; destruct (Hfail path) as [f Hf]; congruence.
Qed.

Lemma geo_discover_run driver query st :
  ∃ outcome st',
    Scraper.geo_discover P driver query st = (Ok outcome, st')
    ∧ (outcome = None ∨ outcome = Some []
       ∨ ∃ soup, outcome = Some (links_of Geo (anchors_href P soup)))
    ∧ ((∃ failure, driver_get P driver (search_url Geo query) = inl failure) →
       outcome = None ∨ outcome = Some []).
Proof.
  unfold Scraper.geo_discover, try_except, lift, raise, logger, mbind,
    M_mbind, M_bind, mret, M_mret, M_ret.
  destruct (driver_get P driver (search_url Geo query)) as [failure | []].
  - destruct (is_timeout_exception failure);
      eexists _, _; (split; [reflexivity | split; auto]).
  - destruct (page_source P driver (search_url Geo query)) as [source | e].
    + destruct (BeautifulSoup W source) as [soup | e];
        eexists _, _; (split; [reflexivity |]);
        (split; [eauto | by intros [? ?]]).
    + eexists _, _; (split; [reflexivity |]);
        (split; [eauto | by intros [? ?]]).
Qed.

Lemma process_no_links src st :
  Scraper.process_links P src [] st = (Ok [], st).
Proof.
  unfold Scraper.process_links.
  by rewrite (proj1 (Permutation_nil_r _) (iteration_order_perm P [])).
Qed.

Lemma quit_run driver st :
  try_except (lift (driver_quit P driver)) (λ _, mret tt) st = (Ok tt, st).
Proof.
  unfold try_except, lift, mret, M_mret, M_ret.
  by destruct (driver_quit P driver) as [[]|e].
Qed.

Lemma search_geo_news_run cache query st :
  ∃ results cache' st',
    Scraper.search_geo_news P cache query st = (Ok (results, cache'), st')
    ∧ length results ≤ 10
    ∧ Forall (λ record,
        record !! "source" = Some (PStr (py "geo"))
        ∧ ∃ link,
            record !! "url" = Some (PStr link)
            ∧ startswith (py "https://www.geo.tv") link = true
            ∧ contains (py "/latest/") link = true) results
    ∧ ((∀ path, ∃ failure, webdriver_Chrome P path = inl failure) →
       results = [])
    ∧ ((∀ driver url, ∃ failure, driver_get P driver url = inl failure) →
       results = []).
Proof.
  unfold Scraper.search_geo_news.
  rewrite (bind_ok _ _ _ _ _ (logger_add INFO _ st)).
  destruct (create_driver_run cache (add_log st (INFO, searching_for Geo query)))
    as (started & cache' & st1 & Hstart & Hnostart).
  rewrite (bind_ok _ _ _ _ _ Hstart).
  destruct started as [driver | e].
  2: { eexists _, _, _. split; [reflexivity |].
       split_and!; [simpl; lia | constructor | done | done]. }
  destruct (geo_discover_run driver query st1)
    as (outcome & st2 & Hdisc & Hcase & Hnoget).
  rewrite (bind_ok _ _ _ _ _ Hdisc).
  rewrite (bind_ok _ _ _ _ _ (quit_run driver st2)).
  assert (∀ links st3,
            (∀ link, link ∈ links →
               startswith (py "https://www.geo.tv") link = true
               ∧ contains (py "/latest/") link = true) →
            ∃ results st',
              (headlines ← Scraper.process_links P Geo links;
               mret (headlines, cache')) st3 = (Ok (results, cache'), st')
              ∧ length results ≤ 10
              ∧ Forall (λ record,
                  record !! "source" = Some (PStr (py "geo"))
                  ∧ ∃ link,
                      record !! "url" = Some (PStr link)
                      ∧ startswith (py "https://www.geo.tv") link = true
                      ∧ contains (py "/latest/") link = true) results
              ∧ (links = [] → results = [])) as Hloop.
  { intros links st3 Hgood.
    destruct (process_links_run P Geo links st3)
      as (results & st' & Hrun & Hlen & Hrec).
    exists results, st'. rewrite (bind_ok _ _ _ _ _ Hrun).
    split_and!; [done | done | |].
    - eapply Forall_impl; [exact Hrec |].
      intros r (Hs & link & Hin & Hu). split; [done |].
      exists link. split; [done |]. by apply Hgood.
    - intros ->. rewrite process_no_links in Hrun. by injection Hrun as <-. }
  destruct Hcase as [-> | [-> | (soup & ->)]].
  - eexists _, _, _. split; [reflexivity |].
    split_and!; [simpl; lia | constructor | done | done].
  - rewrite (bind_ok _ _ _ _ _ (logger_add INFO _ st2)).
    destruct (Hloop [] (add_log st2
                (INFO, ScraperMessage
                   (py "[Geo] Found " ++ str_nat (length (@nil pystr))
                    ++ py " articles for query: " ++ query))))
      as (results & st' & Hrun & Hlen & Hrec & Hnil);
      [by intros ? ?%elem_of_nil |].
    exists results, cache', st'. rewrite (Hnil eq_refl) in *.
    split_and!; [done | done | done | done | done].
  - rewrite (bind_ok _ _ _ _ _ (logger_add INFO _ st2)).
    destruct (Hloop (links_of Geo (anchors_href P soup))
                (add_log st2
                   (INFO, ScraperMessage
                      (py "[Geo] Found "
                       ++ str_nat (length (links_of Geo (anchors_href P soup)))
                       ++ py " articles for query: " ++ query))))
      as (results & st' & Hrun & Hlen & Hrec & Hnil).
    { apply (sifted_links geo_link _ _ geo_links_good). }
    exists results, cache', st'.
    split_and!; [done | done | done | |].
    + intros Hfail. destruct (Hfail (py "")) as [f Hf].
      destruct (Hnostart Hfail) as [e He]. done.
    + intros Hfail.
      destruct (Hnoget (Hfail driver (search_url Geo query))) as [? | ?];
        [done |].
      apply Hnil. congruence.
Qed.

(** X19: The Geo search (through the browser) never raises: it returns at
    most 10 records, each of source geo with a url that starts with
    https://www.geo.tv and contains /latest/; when the browser cannot be
    started, or the search page cannot be loaded, the result is the empty
    list. *)
Theorem search_geo_news_outcomes cache query st :
  ∃ results cache' st',
    Scraper.search_geo_news P cache query st = (Ok (results, cache'), st')
    ∧ length results ≤ 10
    ∧ Forall (λ record,
        record !! "source" = Some (PStr (py "geo"))
        ∧ ∃ link,
            record !! "url" = Some (PStr link)
            ∧ startswith (py "https://www.geo.tv") link = true
            ∧ contains (py "/latest/") link = true) results
    ∧ ((∀ path, ∃ failure, webdriver_Chrome P path = inl failure) →
       results = [])
    ∧ ((∀ driver url, ∃ failure, driver_get P driver url = inl failure) →
       results = []).
Proof. apply search_geo_news_run. Qed.

End GeoFacts.

Section ScraperFacts.
Context {W : World} (P : Platform W).

Lemma scraper_search_source cache src query st :
  src ≠ Geo →
  search_source (Scraper.scraper P cache) src query st
  = fetching_search P src query st.
Proof. by destruct src. Qed.

Lemma scraper_search_returns cache src query st :
  (∀ src html,
     search_page W src query = Some html →
     ∃ soup, BeautifulSoup W html = Ok soup) →
  ∃ found st',
    search_source (Scraper.scraper P cache) src query st = (Ok found, st').
Proof.
  intros Hparse.
  assert (src = Geo ∨ src ≠ Geo) as [-> | Hsrc]
    by (destruct src; [by left | by right..]).
  - simpl.
    destruct (search_geo_news_run P cache query st)
      as (results & cache' & st' & Hrun & _).
    rewrite (bind_ok _ _ _ _ _ Hrun). eauto.
  - rewrite scraper_search_source by done.
    destruct (fetching_search_run P src query st Hsrc) as (st1 & ->).
    destruct (search_page W src query) as [html|] eqn:Hpage; [| eauto].
    destruct (Hparse src html Hpage) as [soup Hsoup].
    pose proof (search_in_page_run P src html st1) as Hrun.
    rewrite Hsoup in Hrun. destruct Hrun as (results & st' & -> & _). eauto.
Qed.

Lemma scraper_search_all_returns cache query st :
  (∀ src html,
     search_page W src query = Some html →
     ∃ soup, BeautifulSoup W html = Ok soup) →
  ∃ found st',
    search_all_sources (Scraper.scraper P cache) query st = (Ok found, st').
Proof.
  intros Hparse.
  assert (∀ srcs st0, ∃ found st',
            gathers (Scraper.scraper P cache) query srcs st0 found st')
    as Hgather.
  { induction srcs as [|src srcs IH]; intros st0.
    - exists [], st0. constructor.
    - destruct (scraper_search_returns cache src query
                  (add_log st0 (INFO, SearchingSource src)) Hparse)
        as (found & st1 & Hrun).
      destruct (IH st1) as (more & st2 & Hmore).
      exists (found ++ more), st2. by econstructor. }
  destruct (Hgather source_order
              (add_log st (INFO, SearchingAllSources query)))
    as (found & st' & Hall).
  rewrite (search_all_sources_returns _ _ _ _ _ Hall). eauto.
Qed.

(** X20: with the adapters of the program a search raises only on a search
    page the HTML parser rejects: if the parser accepts every search page
    that is fetched for the query, the search of every source returns a
    list, and so does the search over all sources, whatever the network,
    the browser and the article pages do. *)
Theorem searches_return_on_parsed_pages cache query st :
  (∀ src html,
     search_page W src query = Some html →
     ∃ soup, BeautifulSoup W html = Ok soup) →
  (∀ src st0,
     ∃ found st',
       search_source (Scraper.scraper P cache) src query st0 = (Ok found, st'))
  ∧ ∃ found st',
      search_all_sources (Scraper.scraper P cache) query st = (Ok found, st').
Proof.
  intros Hparse. split.
  - intros src st0. by apply scraper_search_returns.
  - by apply scraper_search_all_returns.
Qed.

(** X21: With the real adapters, when a source other than Geo is requested
    and the HTML parser raises on that source's fetched search page, the
    source's search raises that exception and /search answers 500 with the
    exception's message. *)
Theorem search_news_rejected_search_page cache src args st query html e :
  src ≠ Geo →
  strip (default [] (args !! "query")) = query → query ≠ [] →
  str_lower W (default (py "all") (args !! "source")) = source_name src →
  search_page W src query = Some html →
  BeautifulSoup W html = Raise e →
  fst (search_source (Scraper.scraper P cache) src query st) = Raise e
  ∧ fst (search_news W (Scraper.scraper P cache) args st)
    = Ok {| http_status := 500; body := JsonError (exn_msg e) |}.
Proof.
  intros Hsrc Hquery Hne Hsource Hpage Hparse.
  assert (∃ st1, search_source (Scraper.scraper P cache) src query st
                 = (Raise e, st1)) as [st1 Hrun].
  { rewrite scraper_search_source by done.
    destruct (fetching_search_run P src query st Hsrc) as (st1 & ->).
    rewrite Hpage.
    pose proof (search_in_page_run P src html st1) as Hrun.
    rewrite Hparse in Hrun. eauto. }
  split; [by rewrite Hrun |].
  rewrite (search_news_dispatch W _ src args st query Hquery Hne Hsource).
  unfold try_except. by rewrite (bind_raise _ _ _ _ _ Hrun).
Qed.

End ScraperFacts.

(** ** The further properties at sample inputs *)

Lemma normalize_canonical_witness : trimmed (normalize (py " a  b ")).
Proof.
  apply (proj2 (proj2 (proj2 (normalize_canonical (py " a  b "))))).
  vm_compute. reflexivity.
Defined.

Lemma chunk_text_keeps_sentences_witness :
  join dot_space (_chunk_text Sample.long_text 700)
  = join dot_space (packed_sentences Sample.long_text).
Proof.
  apply (proj2 (chunk_text_keeps_sentences Sample.long_text 700
                  ltac:(vm_compute; reflexivity))).
Defined.

Lemma get_summarizer_loads_once_witness :
  fst (get_summarizer Demo.world_with_model Sample.start)
  = Ok (Some Sample.fixed_engine).
Proof.
  apply (proj1 (proj2 (get_summarizer_loads_once Demo.world_with_model
                         Sample.start)) Sample.fixed_engine eq_refl eq_refl).
Defined.

Lemma summarize_text_fallback_witness :
  fst (summarize_text Sample.world Sample.long_text Sample.start)
  = Ok (truncate 800 (normalize Sample.long_text)).
Proof.
  apply (proj1 (summarize_text_fallback Sample.world Sample.long_text
                  Sample.start ltac:(vm_compute; reflexivity) eq_refl)).
Defined.

Lemma summarize_text_single_chunk_witness :
  fst (summarize_text Sample.world Demo.medium_text Sample.start_loaded)
  = Ok (normalize (py "A short summary.")).
Proof.
  apply (proj1 (summarize_text_single_chunk Sample.world Demo.medium_text
                  Sample.start_loaded Sample.fixed_engine
                  ltac:(split; vm_compute; [reflexivity | discriminate])
                  eq_refl)).
  - reflexivity.
  - vm_compute. discriminate.
Defined.

Lemma save_headline_skips_or_logs_witness :
  save_headline Demo.geo_story Demo.no_table
  = (Ok tt, add_log Demo.no_table (ERROR, DatabaseError no_such_table)).
Proof.
  apply (proj2 (save_headline_skips_or_logs Demo.geo_story Demo.no_table)).
  - vm_compute. eauto.
  - reflexivity.
Defined.

Lemma table_constraints_kept_witness :
  ∃ t', headlinesData (snd (save_headline Demo.geo_story Sample.start))
        = Some t'
        ∧ table_ok t'.
Proof.
  apply (proj2 (table_constraints_kept Sample.start) Demo.geo_story
           {| rows := []; sequence := 0 |}).
  - reflexivity.
  - split_and!; simpl; constructor.
Defined.

Lemma save_headline_keeps_other_rows_witness :
  ∃ t',
    headlinesData (snd (save_headline Demo.bbc_story Demo.with_geo_story))
    = Some t'
    ∧ List.filter (λ r, negb (has_url Demo.bbc_url r)) (rows t')
      = List.filter (λ r, negb (has_url Demo.bbc_url r))
          (rows Demo.geo_table)
    ∧ log (snd (save_headline Demo.bbc_story Demo.with_geo_story))
      = log Demo.with_geo_story
    ∧ _summarizer (snd (save_headline Demo.bbc_story Demo.with_geo_story))
      = _summarizer Demo.with_geo_story.
Proof.
  apply (save_headline_keeps_other_rows Demo.with_geo_story Demo.geo_table
           Demo.bbc_story Demo.bbc_url).
  - vm_compute. reflexivity.
  - vm_compute. reflexivity.
Defined.

Lemma get_all_headlines_listing_witness :
  get_all_headlines 2 Demo.with_tied_stories
  = (Ok (row_to_dict <$> selected_rows 2 Demo.tied_table),
     Demo.with_tied_stories)
  ∧ row_to_dict <$> selected_rows 2 Demo.tied_table
    = [Demo.tied_story 0; Demo.tied_story 1].
Proof.
  split.
  - apply (proj1 (get_all_headlines_listing 2 Demo.with_tied_stories)
             Demo.tied_table ltac:(vm_compute; reflexivity) ltac:(lia)).
  - vm_compute. reflexivity.
Defined.

Lemma saved_record_is_listed_witness :
  ∃ listed,
    get_all_headlines 50
      (snd (save_headline Demo.bbc_story Demo.with_geo_story))
    = (Ok listed, snd (save_headline Demo.bbc_story Demo.with_geo_story))
    ∧ Demo.bbc_story ∈ listed.
Proof.
  apply (saved_record_is_listed Demo.with_geo_story Demo.geo_table
           (py "bbc") Demo.bbc_url None (py "Heading") (py "two") 50).
  - vm_compute. reflexivity.
  - right. vm_compute. split; reflexivity.
Defined.


Lemma get_news_with_limit_witness :
  get_news Sample.world Demo.limit_request Demo.with_geo_story
  = (Ok {| http_status := 200;
           body := JsonHeadlines
                     (row_to_dict <$> selected_rows 7 Demo.geo_table) |},
     Demo.with_geo_story).
Proof.
  apply (proj1 (get_news_with_limit Sample.world Demo.limit_request
                  Demo.with_geo_story (py "7") 7
                  ltac:(vm_compute; reflexivity) ltac:(discriminate)
                  ltac:(vm_compute; reflexivity))
           Demo.geo_table ltac:(vm_compute; reflexivity) ltac:(lia)).
Defined.

Lemma links_of_shape_witness :
  startswith (py "https://www.bbc.com") (py "https://www.bbc.com/news/1")
  = true.
Proof.
  apply (proj1 (proj2 (proj2
           (links_of_shape [py "https://www.bbc.co.uk/news/1"; py "/news/2"])))).
  apply list_elem_of_In. vm_compute. left. reflexivity.
Defined.

Lemma init_chromedriver_order_witness :
  ∃ path cache' st',
    _init_chromedriver Demo.platform None Sample.start
    = (Ok (path, cache'), st')
    ∧ cache' = Some path.
Proof.
  destruct (init_chromedriver_order Demo.platform None Sample.start)
    as (path & cache' & st' & Hrun & _ & Hmiss).
  exists path, cache', st'. split; [exact Hrun |].
  apply Hmiss. reflexivity.
Defined.

Lemma init_chromedriver_once_witness :
  ∃ path cache' st',
    _init_chromedriver Demo.platform None Sample.start
    = (Ok (path, cache'), st')
    ∧ path ≠ []
    ∧ ∀ st2, _init_chromedriver Demo.platform cache' st2
             = (Ok (path, cache'), st2).
Proof.
  apply (init_chromedriver_once Demo.platform None Sample.start).
  - reflexivity.
  - intros p candidate Hin. inversion Hin.
Defined.

Lemma fetching_search_outcomes_witness :
  ∃ results,
    fst (fetching_search Demo.platform BBC Sample.floods Sample.start)
    = Ok results
    ∧ length results ≤ 10
    ∧ Forall (record_of BBC
                (links_of BBC (anchors_href Demo.platform (py "Too short."))))
        results.
Proof.
  apply (proj2 (proj2 (fetching_search_outcomes Demo.platform BBC
                         Sample.floods Sample.start ltac:(discriminate)))
           (py "Too short.") (py "Too short.")).
  - vm_compute. reflexivity.
  - reflexivity.
Defined.

Lemma search_geo_news_outcomes_witness :
  ∃ results cache' st',
    Scraper.search_geo_news Demo.platform None Sample.floods Sample.start
    = (Ok (results, cache'), st')
    ∧ length results ≤ 10.
Proof.
  destruct (search_geo_news_outcomes Demo.platform None Sample.floods
              Sample.start) as (results & cache' & st' & Hrun & Hlen & _).
  by exists results, cache', st'.
Defined.

Lemma searches_return_on_parsed_pages_witness :
  ∃ found st',
    search_all_sources (Scraper.scraper Demo.platform None) Sample.floods
      Sample.start
    = (Ok found, st').
Proof.
  apply (searches_return_on_parsed_pages Demo.platform None Sample.floods
           Sample.start).
  intros src html _. by exists html.
Defined.

Lemma search_news_rejected_search_page_witness :
  fst (search_news Demo.rejecting_world
         (Scraper.scraper Demo.rejecting_platform None) Demo.bbc_request
         Sample.start)
  = Ok {| http_status := 500;
          body := JsonError (exn_msg Sample.markup_rejected) |}.
Proof.
  apply (search_news_rejected_search_page Demo.rejecting_platform None BBC
           Demo.bbc_request Sample.start Sample.floods (py "Too short.")
           Sample.markup_rejected).
  - discriminate.
  - vm_compute. reflexivity.
  - discriminate.
  - vm_compute. reflexivity.
  - vm_compute. reflexivity.
  - reflexivity.
Defined.
